(** * Zone counting and periodic persistence (track_box.py)

  A shallow embedding of [src/components/features/track_box.py] (classes
  [Box] and [TrackBox]) and of [tuple_handler] from [src/modules/utils.py],
  followed by the properties of the counting / smoothing / persistence
  engine.

  Conventions of the embedding:
  - Python [int] is [Z] (unbounded).
  - Python [float] values are modelled by the exact rational they denote
    ([Q]).  The only floats of the program are quotients of two integers
    ([int / int], [np.mean] of integers) and one remainder of such a
    quotient by an integer.  IEEE double arithmetic agrees with the exact
    rational on every test the program makes of them (is the remainder 0,
    what is the truncation) as long as the integers involved are below 2^53
    in magnitude; beyond that range the double is rounded, and [int / int]
    raises [OverflowError] beyond the range of doubles, which the model does
    not follow.  A statement whose truth depends on a float result over
    arbitrary states therefore carries the bound as a hypothesis
    ([float_exact], [in_float_range]); a statement about the states a run
    reaches needs none, a counter or a count of 2^53 being out of reach.
  - A raised exception is a value of [exn]; a call that mutates [self]
    before raising keeps the mutation.
  - The rendering attributes ([box_config], [text_config], [apply]) carry no
    state of the engine and are left out. *)

From Stdlib Require Import ZArith QArith Qround Lia List.
From stdpp Require Import gmap strings list pretty.
Import ListNotations.
Open Scope Z_scope.

(** ** Exceptions and results *)

Inductive exn : Type :=
| ValueError
| ZeroDivisionError
| AttributeError
| OSError.

Inductive result (A : Type) : Type :=
| Ok (a : A)
| Raise (e : exn).
Arguments Ok {A} a.
Arguments Raise {A} e.

(** ** utils.tuple_handler *)

(** The values [tuple_handler] accepts: an [int] or a list/tuple of [int]. *)
Inductive pyval : Type :=
| PInt (n : Z)
| PSeq (l : list Z).

(** [max_dim] is always the literal [2] at the call site, an [int], so the
    first guard ([not isinstance(max_dim, int) and ...]) never fires.  This
    is the function at a [max_dim >= 0]; [tuple_handler_z] below takes any
    int. *)
Definition tuple_handler (value : pyval) (max_dim : nat) : result (list Z) :=
  let output :=
    match value with
    | PInt n => repeat n max_dim
    | PSeq l => l
    end in
  if Nat.eqb (length output) max_dim then Ok output else Raise ValueError.

(** ** collections.deque with a [maxlen] *)

Module Deque.

Record t : Type := mk { maxlen : nat; items : list Z }.

(** [deque([], maxlen=n)]: a negative [maxlen] raises [ValueError].  (An
    [n] outside the range of [Py_ssize_t], 2^63 and above or below -2^63,
    raises [OverflowError] instead; the model does not follow it, so its
    deques of such a length do not exist in the program.) *)
Definition new (n : Z) : result t :=
  if n <? 0 then Raise ValueError
  else Ok {| maxlen := Z.to_nat n; items := [] |}.

(** [append]: push on the right, then drop the leftmost element when the
    size exceeds [maxlen]. *)
Definition append (d : t) (x : Z) : t :=
  let l := items d ++ [x] in
  {| maxlen := maxlen d;
     items := if Nat.ltb (maxlen d) (length l) then tl l else l |}.

End Deque.

(** ** Floats as exact rationals *)

(** [a / b] on two ints (true division), as the exact quotient: the double
    the program gets is this rational correctly rounded, and the call
    raises [OverflowError] when the quotient is beyond the doubles. *)
Definition truediv (a b : Z) : result Q :=
  if b =? 0 then Raise ZeroDivisionError
  else Ok (inject_Z a / inject_Z b)%Q.

(** [x % m] for a float [x] and an int [m]: the result has the sign of [m],
    i.e. [x - m * floor (x / m)]. *)
Definition float_mod (x : Q) (m : Z) : result Q :=
  if m =? 0 then Raise ZeroDivisionError
  else Ok (x - inject_Z m * inject_Z (Qfloor (x / inject_Z m)))%Q.

(** [int(x)] on a finite float: truncation toward zero. *)
Definition int_of_float (x : Q) : Z := Z.quot (Qnum x) (Z.pos (Qden x)).

(** [sum] of a list of ints. *)
Definition py_sum (l : list Z) : Z := fold_right Z.add 0 l.

(** [np.mean(l)]: [None] stands for NaN (the mean of an empty sequence).
    The exact mean; the program's double is the same number when the sum is
    below 2^53 in magnitude, up to a rounding that does not change its
    truncation. *)
Definition np_mean (l : list Z) : option Q :=
  match l with
  | [] => None
  | _ => Some (inject_Z (py_sum l) / inject_Z (Z.of_nat (length l)))%Q
  end.

(** The truncated integer mean of a sequence, as the specification words it:
    the sum divided by the length, rounded toward zero. *)
Definition trunc_mean (l : list Z) : Z :=
  Z.quot (py_sum l) (Z.of_nat (length l)).

(** ** class Box *)

Module Box.

Record t : Type := mk {
  name : string;
  xyxy : list Z;
  history : Deque.t;
  count : Z
}.

(** [Box.__init__]: [xyxy = ( *top_left, *bottom_right )]. *)
Definition init (name : string) (top_left bottom_right : list Z)
    (smoothness : Z) : result t :=
  match Deque.new smoothness with
  | Raise e => Raise e
  | Ok d => Ok {| name := name; xyxy := top_left ++ bottom_right;
                  history := d; count := 0 |}
  end.

Definition inside (x1 y1 x2 y2 X Y : Z) : bool :=
  ((x1 <=? X) && (X <=? x2)) && ((y1 <=? Y) && (Y <=? y2)).

(** [Box.check]: unpacking [xyxy] into four names and the result of
    [tuple_handler] into two raises [ValueError] on any other length. *)
Definition check (b : t) (pos : pyval) : result t :=
  match xyxy b with
  | [x1; y1; x2; y2] =>
      match tuple_handler pos 2 with
      | Raise e => Raise e
      | Ok [X; Y] =>
          if inside x1 y1 x2 y2 X Y
          then Ok {| name := name b; xyxy := xyxy b;
                     history := history b; count := count b + 1 |}
          else Ok b
      | Ok _ => Raise ValueError
      end
  | _ => Raise ValueError
  end.

(** [Box.update] *)
Definition update (b : t) : t :=
  {| name := name b; xyxy := xyxy b;
     history := Deque.append (history b) (count b);
     count := 0 |}.

(** [Box.get_value]: [int(np.mean(self.history))]; [int] of NaN raises
    [ValueError]. *)
Definition get_value (b : t) : result Z :=
  match np_mean (Deque.items (history b)) with
  | None => Raise ValueError
  | Some m => Ok (int_of_float m)
  end.

(** The calls a frame loop makes on one box, and their effect; a [check]
    that raises has not touched the box. *)
Inductive op : Type :=
| DoCheck (pos : pyval)
| DoUpdate.

Definition step (b : t) (o : op) : t :=
  match o with
  | DoCheck pos =>
      match check b pos with
      | Ok b' => b'
      | Raise _ => b
      end
  | DoUpdate => update b
  end.

Definition run (b : t) (os : list op) : t := fold_left step os b.

(** One frame: a [check] per tracked position, then one [update]. *)
Definition frame (b : t) (ps : list pyval) : t :=
  run b (map DoCheck ps ++ [DoUpdate]).

(** Does [check] count this position for this box? *)
Definition hit (b : t) (pos : pyval) : bool :=
  match xyxy b, tuple_handler pos 2 with
  | [x1; y1; x2; y2], Ok [X; Y] => inside x1 y1 x2 y2 X Y
  | _, _ => false
  end.

Definition hits (b : t) (ps : list pyval) : nat :=
  length (List.filter (hit b) ps).

End Box.

(** ** The persisted file *)

(** The first field of a data row: the wall clock as [HH:MM:SS] in camera
    mode, an integer number of seconds otherwise. *)
Inductive stamp : Type :=
| Clock (hms : string)
| Second (n : Z).

(** One line of the log: the header written by [config_save], or a data row
    written by [save]. *)
Inductive line : Type :=
| Header (camera : bool) (names : list string)
| Row (t : stamp) (values : list Z).

(** [','.join(l)] *)
Fixpoint join (l : list string) : string :=
  match l with
  | [] => EmptyString
  | [s] => s
  | s :: r => s +:+ "," +:+ join r
  end.

Definition newline : string := String (Ascii.ascii_of_nat 10) EmptyString.

Definition render_stamp (t : stamp) : string :=
  match t with
  | Clock hms => hms
  | Second n => pretty n
  end.

(** The text of a line, as the two f-strings build it. *)
Definition render (l : line) : string :=
  match l with
  | Header camera names =>
      (if camera then "time" else "second") +:+ "," +:+ join names +:+ newline
  | Row t values =>
      render_stamp t +:+ "," +:+ join (map pretty values) +:+ newline
  end.

(** What a call reads from outside the program: whether the file can be
    opened and written (a failure raises [OSError] at [open], before anything
    has changed), and the wall clock [datetime.now().strftime("%H:%M:%S")]. *)
Record env : Type := { io_ok : bool; now : string }.

(** ** class TrackBox *)

Module TrackBox.

(** The dict [save_conf]. *)
Record save_conf : Type := {
  save_path : string;
  interval : Z;
  fps : Z;
  speed : Z;
  camera : bool
}.

(** The attributes [time] and [save_conf] are created together by
    [config_save] (nothing can raise between the two assignments), so they
    are one optional component: [None] is [not hasattr(self, "save_conf")]. *)
Record persistence : Type := { time : Z; conf : save_conf }.

Record t : Type := mk {
  boxes : list Box.t;
  persist : option persistence
}.

(** The object together with the file system it writes to. *)
Record world : Type := { self : t; disk : gmap string (list line) }.

(** A call returns normally or raises; either way the mutations made so far
    stay. *)
Inductive outcome : Type :=
| Done (w : world)
| Raised (e : exn) (w : world).

Definition world_of (o : outcome) : world :=
  match o with Done w => w | Raised _ w => w end.

(** One entry of the [boxes] configuration list ([**config]); the rendering
    keys are left out. *)
Record box_config : Type := {
  cfg_name : string;
  cfg_top_left : list Z;
  cfg_bottom_right : list Z;
  cfg_smoothness : Z
}.

(** [TrackBox.new], on an entry that holds the keys [Box.__init__] asks
    for and a [default_config] that holds the rendering defaults: a missing
    key raises [TypeError] or [KeyError] before any zone is built, which the
    record type of the entries leaves out. *)
Definition new (c : box_config) : result Box.t :=
  Box.init (cfg_name c) (cfg_top_left c) (cfg_bottom_right c)
           (cfg_smoothness c).

(** [TrackBox.__init__]: the list comprehension stops at the first box whose
    construction raises. *)
Fixpoint new_all (cs : list box_config) : result (list Box.t) :=
  match cs with
  | [] => Ok []
  | c :: r =>
      match new c with
      | Raise e => Raise e
      | Ok b =>
          match new_all r with
          | Raise e => Raise e
          | Ok bs => Ok (b :: bs)
          end
      end
  end.

Definition init (cs : list box_config) : result t :=
  match new_all cs with
  | Raise e => Raise e
  | Ok bs => Ok {| boxes := bs; persist := None |}
  end.

(** [[box.check(pos) for box in self.boxes]]: boxes before the one that
    raises have already been mutated. *)
Fixpoint check_all (bs : list Box.t) (pos : pyval)
    : list Box.t * option exn :=
  match bs with
  | [] => ([], None)
  | b :: r =>
      match Box.check b pos with
      | Raise e => (b :: r, Some e)
      | Ok b' => let (r', x) := check_all r pos in (b' :: r', x)
      end
  end.

(** [TrackBox.check] *)
Definition check (w : world) (pos : pyval) : outcome :=
  let (bs, x) := check_all (boxes (self w)) pos in
  let w' := {| self := {| boxes := bs; persist := persist (self w) |};
               disk := disk w |} in
  match x with
  | None => Done w'
  | Some e => Raised e w'
  end.

(** [TrackBox.config_save]: [open(save_path, "w")] truncates or creates the
    file; the header is its only line afterwards. *)
Definition config_save (e : env) (w : world) (save_path : string)
    (interval fps speed : Z) (camera : bool) : outcome :=
  if io_ok e then
    Done {| self :=
              {| boxes := boxes (self w);
                 persist :=
                   Some {| time := 0;
                           conf := {| save_path := save_path;
                                      interval := interval;
                                      fps := fps;
                                      speed := Z.max 1 speed;
                                      camera := camera |} |} |};
            disk := <[save_path :=
                        [Header camera (map Box.name (boxes (self w)))]]>
                      (disk w) |}
  else Raised OSError w.

(** [[str(box.get_value()) for box in self.boxes]], before the conversion to
    text. *)
Fixpoint get_values (bs : list Box.t) : result (list Z) :=
  match bs with
  | [] => Ok []
  | b :: r =>
      match Box.get_value b with
      | Raise e => Raise e
      | Ok v =>
          match get_values r with
          | Raise e => Raise e
          | Ok vs => Ok (v :: vs)
          end
      end
  end.

(** The guard of [save]:
    [self.time != 0 and ((current % interval) == 0)], with the short circuit
    of [and]. *)
Definition due (time : Z) (current : Q) (interval : Z) : result bool :=
  if time =? 0 then Ok false
  else
    match float_mod current interval with
    | Raise e => Raise e
    | Ok r => Ok (Qeq_bool r 0)
    end.

(** The content of a file opened in append mode: empty when it is created. *)
Definition file_at (d : gmap string (list line)) (path : string) : list line :=
  default [] (d !! path).

(** [TrackBox.save].  [time] and [speed] are ints, so
    [int(self.time * speed)] is their product; [current] is computed before
    the guard is tested, and the row's fields are evaluated once the file is
    open. *)
Definition save (e : env) (w : world) : outcome :=
  match persist (self w) with
  | None => Raised AttributeError w
  | Some p =>
      let c := conf p in
      match truediv (time p * speed c) (fps c) with
      | Raise x => Raised x w
      | Ok current =>
          match due (time p) current (interval c) with
          | Raise x => Raised x w
          | Ok false => Done w
          | Ok true =>
              if io_ok e then
                let opened := file_at (disk w) (save_path c) in
                let time_format :=
                  if camera c then Clock (now e)
                  else Second (int_of_float current) in
                match get_values (boxes (self w)) with
                | Raise x =>
                    Raised x {| self := self w;
                                disk := <[save_path c := opened]> (disk w) |}
                | Ok vs =>
                    Done {| self :=
                              {| boxes := boxes (self w);
                                 persist :=
                                   Some {| time :=
                                             if camera c then 0 else time p;
                                           conf := c |} |};
                            disk := <[save_path c :=
                                        opened ++ [Row time_format vs]]>
                                      (disk w) |}
                end
              else Raised OSError w
          end
      end
  end.

(** [TrackBox.update] *)
Definition update (e : env) (w : world) : outcome :=
  let w1 := {| self := {| boxes := map Box.update (boxes (self w));
                          persist := persist (self w) |};
               disk := disk w |} in
  match persist (self w1) with
  | None => Done w1
  | Some _ =>
      match save e w1 with
      | Raised x w2 => Raised x w2
      | Done w2 =>
          match persist (self w2) with
          | None => Raised AttributeError w2
          | Some p =>
              Done {| self := {| boxes := boxes (self w2);
                                 persist := Some {| time := time p + 1;
                                                    conf := conf p |} |};
                      disk := disk w2 |}
          end
      end
  end.

(** The calls a client can make, and their effect on the world. *)
Inductive call : Type :=
| CallCheck (pos : pyval)
| CallUpdate (e : env)
| CallSave (e : env)
| CallConfigSave (e : env) (save_path : string) (interval fps speed : Z)
    (camera : bool).

Definition exec (w : world) (c : call) : outcome :=
  match c with
  | CallCheck pos => check w pos
  | CallUpdate e => update e w
  | CallSave e => save e w
  | CallConfigSave e path interval fps speed camera =>
      config_save e w path interval fps speed camera
  end.

(** The worlds a client can reach from a [TrackBox] built from the
    configuration list [cs]; a call that raised leaves a reachable world. *)
Inductive reachable (cs : list box_config) : world -> Prop :=
| reach_init tb d :
    init cs = Ok tb -> reachable cs {| self := tb; disk := d |}
| reach_call w c :
    reachable cs w -> reachable cs (world_of (exec w c)).

(** One frame of the pipeline: a [check] per tracked position, then one
    [update] (a tick). *)
Definition tick (w : world) (f : list pyval * env) : outcome :=
  update (snd f) (fold_left (fun w p => world_of (check w p)) (fst f) w).

Definition run_ticks (w : world) (fs : list (list pyval * env)) : world :=
  fold_left (fun w f => world_of (tick w f)) fs w.

(** [elapsedFrames], when persistence is enabled. *)
Definition time_of (w : world) : option Z := time <$> persist (self w).

(** A step from [w] to [w'] appended the row [r] to the file [path]. *)
Definition appended (w w' : world) (path : string) (r : line) : Prop :=
  file_at (disk w') path = file_at (disk w) path ++ [r].

(** The write condition of the persistence scheduler, as the specification
    words it: [elapsedFrames <> 0] and
    [(truncate (elapsedFrames * speedMultiplier) / fps) mod intervalSeconds]
    is zero, the quotient and the remainder being real-valued. *)
Definition real_mod (x : Q) (m : Z) : Q :=
  (x - inject_Z m * inject_Z (Qfloor (x / inject_Z m)))%Q.

Definition spec_due (elapsed speed fps interval : Z) : Prop :=
  elapsed <> 0 /\
  (real_mod (inject_Z (elapsed * speed) / inject_Z fps) interval == 0)%Q.

End TrackBox.

(** ** Auxiliary notions used by the statements *)

(** The history never holds more than [maxlen] counts. *)
Definition bounded (m : nat) (b : Box.t) : Prop :=
  Deque.maxlen (Box.history b) = m /\
  (length (Deque.items (Box.history b)) <= m)%nat.

(** The zone has at least one count in its history. *)
Definition nonempty (b : Box.t) : Prop := Deque.items (Box.history b) <> [].

(** The truncated mean of the zone's history. *)
Definition smoothed (b : Box.t) : Z := trunc_mean (Deque.items (Box.history b)).

(** The first field of the row [save] writes. *)
Definition row_stamp (e : env) (p : TrackBox.persistence) : stamp :=
  let c := TrackBox.conf p in
  if TrackBox.camera c then Clock (now e)
  else Second (int_of_float
                 (inject_Z (TrackBox.time p * TrackBox.speed c) /
                  inject_Z (TrackBox.fps c))).

(** The world after [save] has written its row. *)
Definition saved (e : env) (w : TrackBox.world) (p : TrackBox.persistence)
    : TrackBox.world :=
  let c := TrackBox.conf p in
  {| TrackBox.self :=
       {| TrackBox.boxes := TrackBox.boxes (TrackBox.self w);
          TrackBox.persist :=
            Some {| TrackBox.time :=
                      if TrackBox.camera c then 0 else TrackBox.time p;
                    TrackBox.conf := c |} |};
     TrackBox.disk :=
       <[TrackBox.save_path c :=
           TrackBox.file_at (TrackBox.disk w) (TrackBox.save_path c) ++
           [Row (row_stamp e p)
                (map smoothed (TrackBox.boxes (TrackBox.self w)))]]>
         (TrackBox.disk w) |}.

(** The world after [save] opened the file and raised before writing. *)
Definition touched (w : TrackBox.world) (p : TrackBox.persistence)
    : TrackBox.world :=
  let c := TrackBox.conf p in
  {| TrackBox.self := TrackBox.self w;
     TrackBox.disk :=
       <[TrackBox.save_path c :=
           TrackBox.file_at (TrackBox.disk w) (TrackBox.save_path c)]>
         (TrackBox.disk w) |}.

(** The write condition at the current frame counter and configuration. *)
Definition is_due (p : TrackBox.persistence) : Prop :=
  TrackBox.spec_due (TrackBox.time p) (TrackBox.speed (TrackBox.conf p))
                    (TrackBox.fps (TrackBox.conf p))
                    (TrackBox.interval (TrackBox.conf p)).

(** The five ways a call of [save] can go when persistence is enabled. *)
Inductive save_step (e : env) (w : TrackBox.world) (p : TrackBox.persistence)
    : TrackBox.outcome -> Prop :=
| save_zero_division :
    TrackBox.fps (TrackBox.conf p) = 0 \/
    (TrackBox.time p <> 0 /\ TrackBox.interval (TrackBox.conf p) = 0) ->
    save_step e w p (TrackBox.Raised ZeroDivisionError w)
| save_not_due :
    TrackBox.fps (TrackBox.conf p) <> 0 ->
    ~ is_due p ->
    save_step e w p (TrackBox.Done w)
| save_io_error :
    TrackBox.fps (TrackBox.conf p) <> 0 ->
    is_due p -> io_ok e = false ->
    save_step e w p (TrackBox.Raised OSError w)
| save_empty_history :
    TrackBox.fps (TrackBox.conf p) <> 0 ->
    is_due p -> io_ok e = true ->
    ~ Forall nonempty (TrackBox.boxes (TrackBox.self w)) ->
    save_step e w p (TrackBox.Raised ValueError (touched w p))
| save_row :
    TrackBox.fps (TrackBox.conf p) <> 0 ->
    is_due p -> io_ok e = true ->
    Forall nonempty (TrackBox.boxes (TrackBox.self w)) ->
    save_step e w p (TrackBox.Done (saved e w p)).

(** The world once every box has been updated. *)
Definition ticked (w : TrackBox.world) : TrackBox.world :=
  {| TrackBox.self :=
       {| TrackBox.boxes := map Box.update (TrackBox.boxes (TrackBox.self w));
          TrackBox.persist := TrackBox.persist (TrackBox.self w) |};
     TrackBox.disk := TrackBox.disk w |}.

(** The world with the frame counter set to [t]. *)
Definition with_time (w : TrackBox.world) (p : TrackBox.persistence) (t : Z)
    : TrackBox.world :=
  {| TrackBox.self :=
       {| TrackBox.boxes := TrackBox.boxes (TrackBox.self w);
          TrackBox.persist :=
            Some {| TrackBox.time := t; TrackBox.conf := TrackBox.conf p |} |};
     TrackBox.disk := TrackBox.disk w |}.

(** The five ways a call of [update] can go when persistence is enabled. *)
Inductive update_step (e : env) (w : TrackBox.world)
    (p : TrackBox.persistence) : TrackBox.outcome -> Prop :=
| update_zero_division :
    TrackBox.fps (TrackBox.conf p) = 0 \/
    (TrackBox.time p <> 0 /\ TrackBox.interval (TrackBox.conf p) = 0) ->
    update_step e w p (TrackBox.Raised ZeroDivisionError (ticked w))
| update_not_due :
    TrackBox.fps (TrackBox.conf p) <> 0 ->
    ~ is_due p ->
    update_step e w p
      (TrackBox.Done (with_time (ticked w) p (TrackBox.time p + 1)))
| update_io_error :
    TrackBox.fps (TrackBox.conf p) <> 0 ->
    is_due p -> io_ok e = false ->
    update_step e w p (TrackBox.Raised OSError (ticked w))
| update_empty_history :
    TrackBox.fps (TrackBox.conf p) <> 0 ->
    is_due p -> io_ok e = true ->
    ~ Forall nonempty (TrackBox.boxes (TrackBox.self (ticked w))) ->
    update_step e w p (TrackBox.Raised ValueError (touched (ticked w) p))
| update_row :
    TrackBox.fps (TrackBox.conf p) <> 0 ->
    is_due p -> io_ok e = true ->
    Forall nonempty (TrackBox.boxes (TrackBox.self (ticked w))) ->
    update_step e w p
      (TrackBox.Done
         (with_time (saved e (ticked w) p) p
            ((if TrackBox.camera (TrackBox.conf p) then 0 else TrackBox.time p)
             + 1))).

(** The history has room for at least one count and respects its bound. *)
Definition positive (b : Box.t) : Prop :=
  (1 <= Deque.maxlen (Box.history b))%nat /\
  (length (Deque.items (Box.history b)) <= Deque.maxlen (Box.history b))%nat.

(** Every zone has room for a count, and once the frame counter has left 0
    every zone has a count in its history. *)
Definition good (w : TrackBox.world) : Prop :=
  Forall positive (TrackBox.boxes (TrackBox.self w)) /\
  (forall p, TrackBox.persist (TrackBox.self w) = Some p ->
             TrackBox.time p <> 0 ->
             Forall nonempty (TrackBox.boxes (TrackBox.self w))).

(** The configuration of scenario B. *)
Definition scenario_conf (path : string) : TrackBox.save_conf :=
  {| TrackBox.save_path := path; TrackBox.interval := 2; TrackBox.fps := 10;
     TrackBox.speed := 1; TrackBox.camera := false |}.

(** The line is a data row, not a header. *)
Definition is_row (l : line) : Prop :=
  match l with
  | Row _ _ => True
  | Header _ _ => False
  end.

(** What [config_save] stores in [save_conf]. *)
Definition stored_conf (path : string) (interval fps speed : Z)
    (camera : bool) : TrackBox.save_conf :=
  {| TrackBox.save_path := path; TrackBox.interval := interval;
     TrackBox.fps := fps; TrackBox.speed := Z.max 1 speed;
     TrackBox.camera := camera |}.

(** ** Concrete zones and worlds for the examples *)

(** The file can be opened; it is noon. *)
Definition env_ok : env := {| io_ok := true; now := "12:00:00" |}.

(** One zone, rectangle (0,0)-(10,10), smoothness 3. *)
Definition door_config : TrackBox.box_config :=
  {| TrackBox.cfg_name := "door"; TrackBox.cfg_top_left := [0; 0];
     TrackBox.cfg_bottom_right := [10; 10]; TrackBox.cfg_smoothness := 3 |}.

(** The zone built from [door_config]. *)
Definition door : Box.t := Box.mk "door" [0; 0; 10; 10] (Deque.mk 3 []) 0.

(** A freshly built [TrackBox] with one zone, and no file yet. *)
Definition fresh : TrackBox.world :=
  {| TrackBox.self := {| TrackBox.boxes := [door]; TrackBox.persist := None |};
     TrackBox.disk := ∅ |}.

(** One frame with one tracked position inside the zone. *)
Definition one_inside : list pyval * env := ([PSeq [1; 1]], env_ok).

(** [fresh] after [config_save("out.csv", 2, 10, 1, False)]. *)
Definition enabled : TrackBox.world :=
  TrackBox.world_of (TrackBox.config_save env_ok fresh "out.csv" 2 10 1 false).

(** A world at frame 20 of scenario B, camera mode or not. *)
Definition at_frame_20 (camera : bool) : TrackBox.world :=
  {| TrackBox.self :=
       {| TrackBox.boxes :=
            [Box.mk "door" [0; 0; 10; 10] (Deque.mk 3 [3; 4; 6]) 0];
          TrackBox.persist :=
            Some {| TrackBox.time := 20;
                    TrackBox.conf :=
                      {| TrackBox.save_path := "out.csv";
                         TrackBox.interval := 2; TrackBox.fps := 10;
                         TrackBox.speed := 1; TrackBox.camera := camera |} |} |};
     TrackBox.disk := {["out.csv" := [Header camera ["door"]]]} |}.

(** ** Further notions: windows and runs of frames *)

(** The last [n] elements of a list. *)
Definition lastn (n : nat) (l : list Z) : list Z := skipn (length l - n) l.

(** Successive frames on one box: for each frame its checks, then one
    update. *)
Definition box_frames (b : Box.t) (pss : list (list pyval)) : Box.t :=
  fold_left Box.frame pss b.

(** The counts are natural numbers. *)
Definition counts_nonneg (b : Box.t) : Prop :=
  0 <= Box.count b /\ Forall (fun x => 0 <= x) (Deque.items (Box.history b)).

(** ** Further notions: construction and fan-out *)

(** The zone [TrackBox.new] builds from a configuration entry whose
    smoothness is not negative. *)
Definition built (c : TrackBox.box_config) : Box.t :=
  Box.mk (TrackBox.cfg_name c)
         (TrackBox.cfg_top_left c ++ TrackBox.cfg_bottom_right c)
         (Deque.mk (Z.to_nat (TrackBox.cfg_smoothness c)) [])
         0.

(** The zone after one [check] that did not raise. *)
Definition counted (pos : pyval) (b : Box.t) : Box.t :=
  Box.mk (Box.name b) (Box.xyxy b) (Box.history b)
         (Box.count b + (if Box.hit b pos then 1 else 0)).

(** The rectangle has its four coordinates. *)
Definition well_formed (b : Box.t) : Prop := length (Box.xyxy b) = 4%nat.

(** The world with its boxes replaced. *)
Definition with_boxes (w : TrackBox.world) (bs : list Box.t) : TrackBox.world :=
  {| TrackBox.self :=
       {| TrackBox.boxes := bs;
          TrackBox.persist := TrackBox.persist (TrackBox.self w) |};
     TrackBox.disk := TrackBox.disk w |}.

(** What a [check] may change of a zone: its count, by at most one. *)
Definition same_but_count (b b' : Box.t) : Prop :=
  Box.name b' = Box.name b /\ Box.xyxy b' = Box.xyxy b /\
  Box.history b' = Box.history b /\
  Box.count b <= Box.count b' <= Box.count b + 1.

(** ** Further notions: the schedule of rows *)

(** The number of ticks from one row to the next: the least positive frame
    count [t] such that [fps * interval] divides [t * speed]. *)
Definition period (c : TrackBox.save_conf) : Z :=
  (TrackBox.fps c * TrackBox.interval c) /
  Z.gcd (TrackBox.fps c * TrackBox.interval c) (TrackBox.speed c).

(** The frame counter before tick number [n] (from 0) of a run started by
    [config_save]: the number of ticks so far, or in camera mode the number
    of ticks since the last row. *)
Definition counter_before (c : TrackBox.save_conf) (n : Z) : Z :=
  if TrackBox.camera c
  then (if n =? 0 then 0 else (n - 1) mod period c + 1)
  else n.

(** The first field of the row written at tick [n]. *)
Definition stamp_at (c : TrackBox.save_conf) (e : env) (n : Z) : stamp :=
  if TrackBox.camera c then Clock (now e)
  else Second (Z.quot (n * TrackBox.speed c) (TrackBox.fps c)).

(** Is tick [n] one at which a row is written? *)
Definition row_tick (c : TrackBox.save_conf) (n : Z) : bool :=
  negb (n =? 0) && (n mod period c =? 0).

(** ** utils.workers_handler and utils.device_handler *)

Module Utils.

(** The exceptions the two functions raise. *)
Inductive error : Type :=
| TypeError
| ValueError
| OverflowError.

Inductive result (A : Type) : Type :=
| Return (a : A)
| Fail (e : error).
Arguments Return {A} a.
Arguments Fail {A} e.

Section Workers.

(** Python floats, and [int(max_workers * value)] for a float [value]: the
    product is rounded to a double and truncated; [int] raises on NaN and on
    an infinity.  Both are left abstract. *)
Variable float : Type.
Variable scaled : Z -> float -> result Z.

(** The argument of [workers_handler]: an [int], a [float], or anything
    else. *)
Inductive workers_value : Type :=
| WInt (n : Z)
| WFloat (x : float)
| WOther.

(** [workers_handler]; [max_workers] is what [os.cpu_count()] returned. *)
Definition workers_handler (max_workers : Z) (value : workers_value)
    : result Z :=
  let chosen :=
    match value with
    | WInt n => Return n
    | WFloat x => scaled max_workers x
    | WOther => Return 0
    end in
  match chosen with
  | Fail e => Fail e
  | Return workers =>
      if negb ((-1 <? workers) && (workers <? max_workers))
      then Fail ValueError
      else Return workers
  end.

End Workers.

Arguments WInt {float} n.
Arguments WFloat {float} x.
Arguments WOther {float}.

(** The argument of [device_handler]: a [str] or anything else. *)
Inductive device_value : Type :=
| DStr (s : string)
| DOther.

(** The character [:] (code 58). *)
Definition colon : Ascii.ascii := Ascii.ascii_of_nat 58.

(** [":" in value] *)
Fixpoint has_colon (s : string) : bool :=
  match s with
  | EmptyString => false
  | String a r => Ascii.eqb a colon || has_colon r
  end.

Section Device.

(** [value.strip().lower()], left abstract. *)
Variable normalize : string -> string.

(** [device_handler]; [cuda_available] is what [torch.cuda.is_available()]
    returns.  In the second [case], ["gpu" | value.startswith("cuda")], the
    alternative [value.startswith("cuda")] is a class pattern whose class is
    the bound method [value.startswith]: when the subject is not ["gpu"] the
    match statement evaluates it and raises [TypeError], as a class pattern
    does on anything that is not a type.  The [case _] below it is never
    reached. *)
Definition device_handler (cuda_available : bool) (value : device_value)
    : result string :=
  match value with
  | DOther => Fail TypeError
  | DStr s =>
      let value := normalize s in
      if String.eqb value "auto"
      then Return (if cuda_available then "cuda" else "cpu")
      else if String.eqb value "gpu"
      then
        if negb cuda_available then Fail ValueError
        else Return (if has_colon value then value else "cuda")
      else Fail TypeError
  end.

End Device.

End Utils.

(** ** Further notions: zone invariants *)

(** What stays true of the zone built from the entry [c]. *)
Definition zone_of (c : TrackBox.box_config) (b : Box.t) : Prop :=
  Box.name b = TrackBox.cfg_name c /\
  Box.xyxy b = TrackBox.cfg_top_left c ++ TrackBox.cfg_bottom_right c /\
  Deque.maxlen (Box.history b) = Z.to_nat (TrackBox.cfg_smoothness c) /\
  (length (Deque.items (Box.history b)) <=
   Z.to_nat (TrackBox.cfg_smoothness c))%nat /\
  counts_nonneg b.

(** ** The range in which the exact model is the float computation *)

(** Integers below [2^53] in magnitude are doubles. *)
Definition two53 : Z := 2 ^ 53.

(** The counts of a history are small enough for [np.mean] to be exact up
    to its last division: the float64 sum adds integers whose partial sums
    all stay below [2^53], and the length is a double.  The quotient of two
    such integers, rounded to a double, truncates to the same integer as
    the exact quotient. *)
Definition float_exact (l : list Z) : Prop :=
  py_sum (map Z.abs l) < two53 /\ Z.of_nat (length l) < two53.

(** Every zone's history is in that range. *)
Definition exact_values (bs : list Box.t) : Prop :=
  Forall (fun b => float_exact (Deque.items (Box.history b))) bs.

(** The integers [save] divides and reduces are doubles: the product
    [time * speed], [fps] and [interval] are below [2^53] in magnitude.
    Then [int / int] is the exact quotient when it is an integer and is not
    an integer otherwise, and the remainder test and the truncation are
    those of the exact rational. *)
Definition in_float_range (p : TrackBox.persistence) : Prop :=
  Z.abs (TrackBox.time p * TrackBox.speed (TrackBox.conf p)) < two53 /\
  Z.abs (TrackBox.fps (TrackBox.conf p)) < two53 /\
  Z.abs (TrackBox.interval (TrackBox.conf p)) < two53.

(** ** A zone that records nothing *)

(** One zone, rectangle (0,0)-(10,10), smoothness 0. *)
Definition still_config : TrackBox.box_config :=
  {| TrackBox.cfg_name := "door"; TrackBox.cfg_top_left := [0; 0];
     TrackBox.cfg_bottom_right := [10; 10]; TrackBox.cfg_smoothness := 0 |}.

(** The [TrackBox] built from it, and no file yet. *)
Definition still : TrackBox.world :=
  {| TrackBox.self :=
       {| TrackBox.boxes := [Box.mk "door" [0; 0; 10; 10] (Deque.mk 0 []) 0];
          TrackBox.persist := None |};
     TrackBox.disk := ∅ |}.

(** [still] after [config_save("out.csv", 2, 10, 1, False)] and 20 frames. *)
Definition still_at_20 : TrackBox.world :=
  TrackBox.run_ticks
    (TrackBox.world_of
       (TrackBox.config_save env_ok still "out.csv" 2 10 1 false))
    (repeat one_inside 20).

(** ** tuple_handler for any int [max_dim] *)

(** A length for which [[value] * max_dim] is a list of a few megabytes;
    the [MemoryError] and [OverflowError] of longer repetitions are not
    followed. *)
Definition small_dim : Z := 2 ^ 20.

(** [tuple_handler] with [max_dim] any int below [small_dim]: a list
    repeated a negative number of times is empty ([tuple_handler] above is
    this function at a [max_dim >= 0]). *)
Definition tuple_handler_z (value : pyval) (max_dim : Z) : result (list Z) :=
  let output :=
    match value with
    | PInt n => repeat n (Z.to_nat max_dim)
    | PSeq l => l
    end in
  if Z.of_nat (length output) =? max_dim then Ok output else Raise ValueError.

(** ** The fields of a rendered line *)

Definition comma : Ascii.ascii := Ascii.ascii_of_nat 44.

(** [s.count(",")] *)
Fixpoint commas (s : string) : nat :=
  match s with
  | EmptyString => 0%nat
  | String a r => ((if Ascii.eqb a comma then 1 else 0) + commas r)%nat
  end.

(** The text holds no comma. *)
Definition plain (s : string) : Prop := commas s = 0%nat.

(** The text of the line, split at its commas, is a first field and [k]
    more; with no zone at all ([k = 0]) the one comma of the f-string is
    still there, followed by an empty field. *)
Definition columns (k : nat) (l : line) : Prop :=
  commas (render l) = Nat.max 1 k.

(** * Properties *)

(** ** Box: containment test *)

Lemma inside_spec x1 y1 x2 y2 X Y :
  Box.inside x1 y1 x2 y2 X Y = true <-> (x1 <= X <= x2 /\ y1 <= Y <= y2).
Proof.
  unfold Box.inside.
  rewrite !andb_true_iff, !Z.leb_le. tauto.
Qed.

(** C7: for a zone with rectangle (x1, y1, x2, y2) and a position (X, Y),
    [check] adds exactly 1 to the zone's count when x1 <= X <= x2 and
    y1 <= Y <= y2 (bounds included) and touches nothing else; otherwise the
    zone is left as it was. *)
Theorem check_counts_inclusive (b : Box.t) (x1 y1 x2 y2 X Y : Z) :
  Box.xyxy b = [x1; y1; x2; y2] ->
  (x1 <= X <= x2 /\ y1 <= Y <= y2 ->
   Box.check b (PSeq [X; Y]) =
     Ok (Box.mk (Box.name b) (Box.xyxy b) (Box.history b) (Box.count b + 1)))
  /\
  (~ (x1 <= X <= x2 /\ y1 <= Y <= y2) ->
   Box.check b (PSeq [X; Y]) = Ok b).
Proof.
  intros Hrect. unfold Box.check. rewrite Hrect. cbn.
  split; intros Hin.
  - apply inside_spec in Hin. now rewrite Hin.
  - destruct (Box.inside x1 y1 x2 y2 X Y) eqn:E; [|reflexivity].
    apply inside_spec in E. contradiction.
Qed.

Lemma check_counts_inclusive_witness :
  Box.check (Box.mk "door" [0; 0; 10; 10] (Deque.mk 3 []) 4) (PSeq [10; 0]) =
    Ok (Box.mk "door" [0; 0; 10; 10] (Deque.mk 3 []) 5)
  /\
  Box.check (Box.mk "door" [0; 0; 10; 10] (Deque.mk 3 []) 4) (PSeq [11; 0]) =
    Ok (Box.mk "door" [0; 0; 10; 10] (Deque.mk 3 []) 4).
Proof.
  split.
  - apply (check_counts_inclusive
             (Box.mk "door" [0; 0; 10; 10] (Deque.mk 3 []) 4) 0 0 10 10 10 0);
      [reflexivity | lia].
  - apply (check_counts_inclusive
             (Box.mk "door" [0; 0; 10; 10] (Deque.mk 3 []) 4) 0 0 10 10 11 0);
      [reflexivity | lia].
Defined.

(** ** Box: the smoothed value *)

Lemma int_of_float_quotient (s : Z) (n : nat) :
  int_of_float (inject_Z s / inject_Z (Z.of_nat (S n))) =
  Z.quot s (Z.of_nat (S n)).
Proof.
  unfold int_of_float. cbn.
  now rewrite Z.mul_1_r.
Qed.

Lemma np_mean_nonempty (l : list Z) :
  l <> [] ->
  np_mean l = Some (inject_Z (py_sum l) / inject_Z (Z.of_nat (length l)))%Q.
Proof. destruct l; [congruence | reflexivity]. Qed.

Lemma get_value_nonempty (b : Box.t) :
  Deque.items (Box.history b) <> [] ->
  Box.get_value b = Ok (trunc_mean (Deque.items (Box.history b))).
Proof.
  intros Hne. unfold Box.get_value, trunc_mean.
  rewrite (np_mean_nonempty _ Hne).
  destruct (Deque.items (Box.history b)) as [|x l]; [congruence|].
  cbn [length]. now rewrite int_of_float_quotient.
Qed.

Lemma get_value_empty (b : Box.t) :
  Deque.items (Box.history b) = [] -> Box.get_value b = Raise ValueError.
Proof. intros E. unfold Box.get_value. now rewrite E. Qed.

(** C1, as the code has it: [get_value] is the truncated (toward zero)
    integer mean of the history when the history is not empty and its
    counts are in the range where the float64 mean is exact (the absolute
    values sum to less than 2^53); on an empty history it raises
    [ValueError] (the mean is NaN) and returns nothing. *)
Theorem get_value_truncated_mean (b : Box.t) :
  (Deque.items (Box.history b) <> [] ->
   float_exact (Deque.items (Box.history b)) ->
   Box.get_value b = Ok (trunc_mean (Deque.items (Box.history b))))
  /\
  (Deque.items (Box.history b) = [] ->
   Box.get_value b = Raise ValueError).
Proof.
  split.
  - intros Hne _. now apply get_value_nonempty.
  - apply get_value_empty.
Qed.

Lemma get_value_truncated_mean_witness :
  Box.get_value (Box.mk "door" [0; 0; 10; 10] (Deque.mk 3 [2; 5]) 0) = Ok 3
  /\
  Box.get_value (Box.mk "door" [0; 0; 10; 10] (Deque.mk 3 []) 0) =
    Raise ValueError.
Proof.
  split.
  - apply (proj1 (get_value_truncated_mean
                    (Box.mk "door" [0; 0; 10; 10] (Deque.mk 3 [2; 5]) 0))).
    + cbn. discriminate.
    + split; reflexivity.
  - apply (proj2 (get_value_truncated_mean
                    (Box.mk "door" [0; 0; 10; 10] (Deque.mk 3 []) 0))).
    reflexivity.
Defined.

(** C1, as the specification states it, fails: a freshly built zone has an
    empty history and [get_value] does not return 0 on it. *)
Lemma get_value_empty_not_zero :
  Box.init "door" [0; 0] [10; 10] 3 =
    Ok (Box.mk "door" [0; 0; 10; 10] (Deque.mk 3 []) 0)
  /\
  Box.get_value (Box.mk "door" [0; 0; 10; 10] (Deque.mk 3 []) 0) =
    Raise ValueError
  /\
  Box.get_value (Box.mk "door" [0; 0; 10; 10] (Deque.mk 3 []) 0) <> Ok 0.
Proof. split; [reflexivity|]. split; [reflexivity | discriminate]. Qed.

(** ** Box: the bounded history *)

Lemma append_items_full (d : Deque.t) (x : Z) :
  (1 <= Deque.maxlen d)%nat ->
  (length (Deque.items d) <= Deque.maxlen d)%nat ->
  Deque.items (Deque.append d x) =
    if Nat.ltb (length (Deque.items d)) (Deque.maxlen d)
    then Deque.items d ++ [x]
    else tl (Deque.items d) ++ [x].
Proof.
  intros Hpos Hlen. unfold Deque.append. cbn [Deque.items].
  rewrite length_app. cbn [length].
  destruct (Nat.ltb_spec (length (Deque.items d)) (Deque.maxlen d)) as [Hlt|Hge].
  - destruct (Nat.ltb_spec (Deque.maxlen d) (length (Deque.items d) + 1));
      [lia | reflexivity].
  - destruct (Nat.ltb_spec (Deque.maxlen d) (length (Deque.items d) + 1));
      [|lia].
    destruct (Deque.items d) as [|y l]; [cbn in *; lia | reflexivity].
Qed.

Lemma append_length (d : Deque.t) (x : Z) :
  (length (Deque.items d) <= Deque.maxlen d)%nat ->
  (length (Deque.items (Deque.append d x)) <= Deque.maxlen d)%nat.
Proof.
  intros Hlen. unfold Deque.append. cbn [Deque.items].
  destruct (Nat.ltb_spec (Deque.maxlen d) (length (Deque.items d ++ [x])))
    as [Hlt|Hge]; [|exact Hge].
  rewrite length_app in Hlt. cbn [length] in Hlt.
  destruct (Deque.items d) as [|y l]; cbn in *.
  - lia.
  - rewrite length_app. cbn. lia.
Qed.

Lemma append_nonempty (d : Deque.t) (x : Z) :
  (1 <= Deque.maxlen d)%nat ->
  (length (Deque.items d) <= Deque.maxlen d)%nat ->
  Deque.items (Deque.append d x) <> [].
Proof.
  intros Hpos Hlen. rewrite append_items_full by assumption.
  destruct (Nat.ltb _ _); intros E; apply app_eq_nil in E;
    destruct E; discriminate.
Qed.

Lemma check_history (b b' : Box.t) (pos : pyval) :
  Box.check b pos = Ok b' ->
  Box.history b' = Box.history b /\ Box.xyxy b' = Box.xyxy b /\
  Box.name b' = Box.name b /\
  Box.count b' = Box.count b + (if Box.hit b pos then 1 else 0).
Proof.
  unfold Box.check, Box.hit.
  destruct (Box.xyxy b) as [|x1 [|y1 [|x2 [|y2 [|]]]]] eqn:Ex;
    try discriminate.
  destruct (tuple_handler pos 2) as [[|X [|Y [|]]]|]; try discriminate.
  destruct (Box.inside x1 y1 x2 y2 X Y); intros [= <-]; cbn;
    rewrite ?Ex; repeat split; lia.
Qed.

Lemma check_raise_no_hit (b : Box.t) (pos : pyval) (e : exn) :
  Box.check b pos = Raise e -> Box.hit b pos = false.
Proof.
  unfold Box.check, Box.hit.
  destruct (Box.xyxy b) as [|x1 [|y1 [|x2 [|y2 [|]]]]]; try reflexivity.
  destruct (tuple_handler pos 2) as [[|X [|Y [|]]]|]; try reflexivity.
  destruct (Box.inside x1 y1 x2 y2 X Y); discriminate.
Qed.

Lemma step_bounded (m : nat) (b : Box.t) (o : Box.op) :
  bounded m b -> bounded m (Box.step b o).
Proof.
  intros [Hm Hlen]. destruct o as [pos|]; cbn.
  - destruct (Box.check b pos) as [b'|] eqn:E; [|now split].
    apply check_history in E. destruct E as (Hh & _).
    unfold bounded. rewrite Hh. now split.
  - split; [exact Hm|]. cbn. rewrite <- Hm. apply append_length. lia.
Qed.

Lemma run_bounded (m : nat) (os : list Box.op) (b : Box.t) :
  bounded m b -> bounded m (Box.run b os).
Proof.
  unfold Box.run. revert b.
  induction os as [|o os IH]; intros b Hb; cbn; [exact Hb|].
  apply IH, step_bounded, Hb.
Qed.

Lemma init_bounded name top_left bottom_right (smoothness : Z) (b : Box.t) :
  Box.init name top_left bottom_right smoothness = Ok b ->
  bounded (Z.to_nat smoothness) b /\ 0 <= smoothness /\
  Deque.items (Box.history b) = [] /\ Box.count b = 0 /\
  Box.xyxy b = top_left ++ bottom_right /\ Box.name b = name.
Proof.
  unfold Box.init, Deque.new.
  destruct (Z.ltb_spec smoothness 0); [discriminate|].
  intros [= <-]. cbn. unfold bounded. cbn. repeat split; lia.
Qed.

(** C9: a zone built with smoothness >= 1 keeps at most [smoothness] counts
    whatever calls of [check] and [update] it has received, and one more
    [update] appends the current count (dropping the oldest one when the
    history is full) and resets the count to 0. *)
Theorem history_bounded_by_smoothness
    name top_left bottom_right (smoothness : Z) (b0 : Box.t)
    (os : list Box.op) :
  1 <= smoothness ->
  Box.init name top_left bottom_right smoothness = Ok b0 ->
  let b := Box.run b0 os in
  let h := Deque.items (Box.history b) in
  let b' := Box.update b in
  Z.of_nat (length (Deque.items (Box.history b'))) <= smoothness /\
  Deque.items (Box.history b') =
    (if Z.of_nat (length h) <? smoothness
     then h ++ [Box.count b]
     else tl h ++ [Box.count b]) /\
  Box.count b' = 0 /\
  Z.of_nat (length h) <= smoothness.
Proof.
  intros Hpos Hinit b h b'.
  apply init_bounded in Hinit. destruct Hinit as (Hb0 & _).
  assert (Hb : bounded (Z.to_nat smoothness) b) by now apply run_bounded.
  assert (Hb' : bounded (Z.to_nat smoothness) b')
    by apply (step_bounded _ b Box.DoUpdate Hb).
  destruct Hb as [Hm Hlen]. destruct Hb' as [_ Hlen'].
  fold h in Hlen.
  repeat split; try lia.
  unfold b'. cbn [Box.update Box.history].
  rewrite append_items_full;
    [| rewrite Hm; lia | rewrite Hm; exact Hlen].
  fold h. rewrite Hm.
  destruct (Nat.ltb_spec (length h) (Z.to_nat smoothness));
    destruct (Z.ltb_spec (Z.of_nat (length h)) smoothness);
    try reflexivity; lia.
Qed.

Lemma history_bounded_by_smoothness_witness :
  Deque.items (Box.history (Box.update (Box.run
    (Box.mk "door" [0; 0; 10; 10] (Deque.mk 2 []) 0)
    [Box.DoCheck (PSeq [1; 1]); Box.DoUpdate; Box.DoUpdate;
     Box.DoCheck (PSeq [3; 4]); Box.DoCheck (PInt 5)]))) = [0; 2].
Proof.
  pose proof (history_bounded_by_smoothness "door" [0; 0] [10; 10] 2
    (Box.mk "door" [0; 0; 10; 10] (Deque.mk 2 []) 0)
    [Box.DoCheck (PSeq [1; 1]); Box.DoUpdate; Box.DoUpdate;
     Box.DoCheck (PSeq [3; 4]); Box.DoCheck (PInt 5)]
    ltac:(lia) eq_refl) as H.
  cbv zeta in H. destruct H as (_ & H & _). exact H.
Defined.

(** ** Box: one frame of checks and an update *)

Lemma hit_same_rectangle (b b' : Box.t) (pos : pyval) :
  Box.xyxy b' = Box.xyxy b -> Box.hit b' pos = Box.hit b pos.
Proof. intros E. unfold Box.hit. now rewrite E. Qed.

Lemma hits_same_rectangle (b b' : Box.t) (ps : list pyval) :
  Box.xyxy b' = Box.xyxy b -> Box.hits b' ps = Box.hits b ps.
Proof.
  intros E. unfold Box.hits. f_equal.
  induction ps as [|p ps IH]; cbn; [reflexivity|].
  now rewrite (hit_same_rectangle b b' p E), IH.
Qed.

Lemma step_check (b : Box.t) (pos : pyval) :
  Box.step b (Box.DoCheck pos) =
  Box.mk (Box.name b) (Box.xyxy b) (Box.history b)
         (Box.count b + (if Box.hit b pos then 1 else 0)).
Proof.
  cbn. destruct (Box.check b pos) as [b'|e] eqn:E.
  - apply check_history in E. destruct E as (Hh & Hx & Hn & Hc).
    destruct b'; cbn in *; now subst.
  - apply check_raise_no_hit in E. rewrite E, Z.add_0_r. now destruct b.
Qed.

Lemma run_checks (ps : list pyval) (b : Box.t) :
  Box.run b (map Box.DoCheck ps) =
  Box.mk (Box.name b) (Box.xyxy b) (Box.history b)
         (Box.count b + Z.of_nat (Box.hits b ps)).
Proof.
  unfold Box.run. revert b.
  induction ps as [|p ps IH]; intros b.
  - cbn. rewrite Z.add_0_r. now destruct b.
  - cbn [map fold_left]. rewrite IH, step_check.
    rewrite (hits_same_rectangle b (Box.mk _ _ _ _) ps eq_refl).
    cbn [Box.name Box.xyxy Box.history Box.count].
    f_equal.
    unfold Box.hits. cbn [List.filter].
    destruct (Box.hit b p); cbn [length]; lia.
Qed.

Lemma frame_spec (b : Box.t) (ps : list pyval) :
  Box.frame b ps =
  Box.mk (Box.name b) (Box.xyxy b)
         (Deque.append (Box.history b)
                       (Box.count b + Z.of_nat (Box.hits b ps)))
         0.
Proof.
  unfold Box.frame, Box.run. rewrite fold_left_app.
  fold (Box.run b (map Box.DoCheck ps)). rewrite run_checks. reflexivity.
Qed.

(** C8 (scenario A): a zone with rectangle (0,0)-(10,10) and smoothness 3
    that sees 2, 4, 6 and 8 positions inside the rectangle in four
    successive frames (each frame: the checks, then one update) has histories
    [2], [2,4], [2,4,6], [4,6,8] after the four updates, and [get_value]
    returns 2, 3, 4, 6. *)
Theorem scenario_smoothing (name : string) (b0 : Box.t)
    (ps1 ps2 ps3 ps4 : list pyval) :
  Box.init name [0; 0] [10; 10] 3 = Ok b0 ->
  Box.hits b0 ps1 = 2%nat -> Box.hits b0 ps2 = 4%nat ->
  Box.hits b0 ps3 = 6%nat -> Box.hits b0 ps4 = 8%nat ->
  let b1 := Box.frame b0 ps1 in
  let b2 := Box.frame b1 ps2 in
  let b3 := Box.frame b2 ps3 in
  let b4 := Box.frame b3 ps4 in
  (Deque.items (Box.history b1) = [2] /\ Box.get_value b1 = Ok 2) /\
  (Deque.items (Box.history b2) = [2; 4] /\ Box.get_value b2 = Ok 3) /\
  (Deque.items (Box.history b3) = [2; 4; 6] /\ Box.get_value b3 = Ok 4) /\
  (Deque.items (Box.history b4) = [4; 6; 8] /\ Box.get_value b4 = Ok 6).
Proof.
  intros Hinit H1 H2 H3 H4 b1 b2 b3 b4.
  assert (E0 : b0 = Box.mk name [0; 0; 10; 10] (Deque.mk 3 []) 0)
    by (vm_compute in Hinit; congruence).
  assert (Hnext : forall h ps n,
             Box.hits b0 ps = n ->
             Box.frame (Box.mk name [0; 0; 10; 10] (Deque.mk 3 h) 0) ps =
             Box.mk name [0; 0; 10; 10]
                    (Deque.append (Deque.mk 3 h) (Z.of_nat n)) 0).
  { intros h ps n Hn. rewrite frame_spec.
    rewrite (hits_same_rectangle b0 (Box.mk _ _ _ _) ps) by now rewrite E0.
    now rewrite Hn. }
  assert (E1 : b1 = Box.mk name [0; 0; 10; 10] (Deque.mk 3 [2]) 0).
  { unfold b1. rewrite E0 at 1. now rewrite (Hnext [] ps1 _ H1). }
  assert (E2 : b2 = Box.mk name [0; 0; 10; 10] (Deque.mk 3 [2; 4]) 0).
  { unfold b2. now rewrite E1, (Hnext [2] ps2 _ H2). }
  assert (E3 : b3 = Box.mk name [0; 0; 10; 10] (Deque.mk 3 [2; 4; 6]) 0).
  { unfold b3. now rewrite E2, (Hnext [2; 4] ps3 _ H3). }
  assert (E4 : b4 = Box.mk name [0; 0; 10; 10] (Deque.mk 3 [4; 6; 8]) 0).
  { unfold b4. now rewrite E3, (Hnext [2; 4; 6] ps4 _ H4). }
  rewrite E1, E2, E3, E4. repeat split; reflexivity.
Qed.

Lemma scenario_smoothing_witness :
  let inside := PSeq [5; 5] in
  let border := PSeq [10; 0] in
  let outside := PSeq [11; 5] in
  let b1 := Box.frame (Box.mk "door" [0; 0; 10; 10] (Deque.mk 3 []) 0)
                      [inside; outside; border] in
  let b2 := Box.frame b1 [inside; inside; PInt 7; border] in
  let b3 := Box.frame b2 (repeat inside 6) in
  let b4 := Box.frame b3 (outside :: repeat border 8) in
  (Deque.items (Box.history b1) = [2] /\ Box.get_value b1 = Ok 2) /\
  (Deque.items (Box.history b2) = [2; 4] /\ Box.get_value b2 = Ok 3) /\
  (Deque.items (Box.history b3) = [2; 4; 6] /\ Box.get_value b3 = Ok 4) /\
  (Deque.items (Box.history b4) = [4; 6; 8] /\ Box.get_value b4 = Ok 6).
Proof.
  intros inside border outside.
  apply (scenario_smoothing "door"
           (Box.mk "door" [0; 0; 10; 10] (Deque.mk 3 []) 0)
           [inside; outside; border]
           [inside; inside; PInt 7; border]
           (repeat inside 6)
           (outside :: repeat border 8));
    reflexivity.
Defined.

(** ** The remainder test of the scheduler, in integers *)

Lemma inject_Z_nonzero (z : Z) : z <> 0 -> ~ (inject_Z z == 0)%Q.
Proof.
  intros Hz E. apply Hz. apply (inject_Z_injective z 0). exact E.
Qed.

(** The real remainder of [a / b] by [m] is zero exactly when [b * m]
    divides [a]. *)
Lemma real_mod_zero_iff (a b m : Z) :
  b <> 0 -> m <> 0 ->
  (TrackBox.real_mod (inject_Z a / inject_Z b) m == 0)%Q <-> (b * m | a).
Proof.
  intros Hb Hm.
  pose proof (inject_Z_nonzero b Hb) as Hb'.
  pose proof (inject_Z_nonzero m Hm) as Hm'.
  unfold TrackBox.real_mod.
  set (x := (inject_Z a / inject_Z b)%Q).
  split.
  - intros H.
    exists (Qfloor (x / inject_Z m)).
    set (k := Qfloor (x / inject_Z m)) in *.
    assert (E : (x == inject_Z m * inject_Z k)%Q).
    { rewrite <- (Qplus_0_r (inject_Z m * inject_Z k)), <- H. ring. }
    apply inject_Z_injective. rewrite !inject_Z_mult.
    transitivity (x * inject_Z b)%Q.
    + unfold x. now field.
    + rewrite E. ring.
  - intros [k Hk].
    assert (E : (x / inject_Z m == inject_Z k)%Q).
    { unfold x. rewrite Hk, !inject_Z_mult. now field. }
    rewrite E, Qfloor_Z.
    unfold x. rewrite Hk, !inject_Z_mult. now field.
Qed.

(** The guard of [save] computes the write condition of the
    specification. *)
Lemma due_spec (time speed fps interval : Z) :
  fps <> 0 ->
  (time = 0 \/ interval <> 0) ->
  exists d,
    TrackBox.due time (inject_Z (time * speed) / inject_Z fps) interval = Ok d
    /\ (d = true <-> TrackBox.spec_due time speed fps interval).
Proof.
  intros Hfps Hcase. unfold TrackBox.due, TrackBox.spec_due.
  destruct (Z.eqb_spec time 0) as [->|Hne].
  - exists false. split; [reflexivity|]. split; [discriminate | tauto].
  - destruct Hcase as [|Hint]; [contradiction|].
    unfold float_mod. destruct (Z.eqb_spec interval 0); [contradiction|].
    eexists. split; [reflexivity|].
    rewrite Qeq_bool_iff. unfold TrackBox.real_mod. tauto.
Qed.

Lemma due_raises (time : Z) (current : Q) :
  time <> 0 -> TrackBox.due time current 0 = Raise ZeroDivisionError.
Proof.
  intros Hne. unfold TrackBox.due.
  destruct (Z.eqb_spec time 0); [contradiction | reflexivity].
Qed.

(** ** Files *)

Lemma file_at_insert (d : gmap string (list line)) (path : string)
    (l : list line) :
  TrackBox.file_at (<[path := l]> d) path = l.
Proof. unfold TrackBox.file_at. now rewrite lookup_insert_eq. Qed.

Lemma file_at_insert_ne (d : gmap string (list line)) (path q : string)
    (l : list line) :
  path <> q ->
  TrackBox.file_at (<[path := l]> d) q = TrackBox.file_at d q.
Proof. intros Hne. unfold TrackBox.file_at. now rewrite lookup_insert_ne. Qed.

Lemma not_grown (l : list line) (r : line) : l <> l ++ [r].
Proof.
  intros E. apply (f_equal (@length line)) in E.
  rewrite length_app in E. cbn in E. lia.
Qed.

(** ** The values of a row *)

Lemma get_values_nonempty (bs : list Box.t) :
  Forall nonempty bs -> TrackBox.get_values bs = Ok (map smoothed bs).
Proof.
  induction 1 as [|b bs Hb _ IH]; cbn; [reflexivity|].
  now rewrite (get_value_nonempty b Hb), IH.
Qed.

Lemma get_values_ok (bs : list Box.t) (vs : list Z) :
  TrackBox.get_values bs = Ok vs -> Forall nonempty bs.
Proof.
  revert vs. induction bs as [|b bs IH]; intros vs; cbn; [constructor|].
  destruct (Box.get_value b) as [v|] eqn:Ev; [|discriminate].
  destruct (TrackBox.get_values bs) as [vs'|] eqn:Evs; [|discriminate].
  intros _. constructor; [|now apply (IH vs')].
  intros E. rewrite (get_value_empty b E) in Ev. discriminate.
Qed.

Lemma get_values_raise (bs : list Box.t) (x : exn) :
  TrackBox.get_values bs = Raise x -> x = ValueError /\ ~ Forall nonempty bs.
Proof.
  intros E. split.
  - revert E. induction bs as [|b bs IH]; cbn; [discriminate|].
    unfold Box.get_value at 1.
    destruct (np_mean _); [|now intros [= <-]].
    destruct (TrackBox.get_values bs); [discriminate|].
    intros [= <-]. now apply IH.
  - intros Hall. rewrite (get_values_nonempty bs Hall) in E. discriminate.
Qed.

(** ** The save step, case by case *)

Lemma save_sound (e : env) (w : TrackBox.world) (p : TrackBox.persistence) :
  TrackBox.persist (TrackBox.self w) = Some p ->
  save_step e w p (TrackBox.save e w).
Proof.
  intros Hp. unfold TrackBox.save. rewrite Hp.
  unfold truediv.
  destruct (Z.eqb_spec (TrackBox.fps (TrackBox.conf p)) 0) as [Hf|Hf].
  { apply save_zero_division. now left. }
  destruct (Z.eq_dec (TrackBox.time p) 0) as [Ht|Ht].
  { unfold TrackBox.due. rewrite Ht. cbn.
    apply save_not_due; [exact Hf|].
    intros [Hne _]. contradiction. }
  destruct (Z.eq_dec (TrackBox.interval (TrackBox.conf p)) 0) as [Hi|Hi].
  { rewrite Hi, due_raises by exact Ht.
    apply save_zero_division. right. now split. }
  destruct (due_spec (TrackBox.time p) (TrackBox.speed (TrackBox.conf p))
              (TrackBox.fps (TrackBox.conf p))
              (TrackBox.interval (TrackBox.conf p)) Hf (or_intror Hi))
    as (d & Hd & Hiff).
  rewrite Hd. destruct d.
  - assert (Hdue : is_due p) by now apply Hiff.
    destruct (io_ok e) eqn:Hio; [|now apply save_io_error].
    destruct (TrackBox.get_values (TrackBox.boxes (TrackBox.self w)))
      as [vs|x] eqn:Hv.
    + pose proof (get_values_ok _ _ Hv) as Hall.
      rewrite (get_values_nonempty _ Hall) in Hv. injection Hv as <-.
      now apply save_row.
    + apply get_values_raise in Hv. destruct Hv as [-> Hnot].
      now apply save_empty_history.
  - apply save_not_due; [exact Hf|].
    intros Hdue. apply Hiff in Hdue. discriminate.
Qed.

Lemma appended_saved (e : env) (w : TrackBox.world) (p : TrackBox.persistence) :
  TrackBox.appended w (saved e w p) (TrackBox.save_path (TrackBox.conf p))
    (Row (row_stamp e p) (map smoothed (TrackBox.boxes (TrackBox.self w)))).
Proof. unfold TrackBox.appended, saved. cbn. apply file_at_insert. Qed.

Lemma file_at_touched (w : TrackBox.world) (p : TrackBox.persistence)
    (q : string) :
  TrackBox.file_at (TrackBox.disk (touched w p)) q =
  TrackBox.file_at (TrackBox.disk w) q.
Proof.
  unfold touched. cbn.
  destruct (decide (TrackBox.save_path (TrackBox.conf p) = q)) as [<-|Hne].
  - apply file_at_insert.
  - now apply file_at_insert_ne.
Qed.

Lemma not_appended_same (w w' : TrackBox.world) (q : string) (r : line) :
  TrackBox.file_at (TrackBox.disk w') q = TrackBox.file_at (TrackBox.disk w) q ->
  ~ TrackBox.appended w w' q r.
Proof.
  unfold TrackBox.appended. intros E H. rewrite E in H.
  exact (not_grown _ _ H).
Qed.

(** Closes a goal in which [H] claims that a step which left the file as it
    was has appended a row to it. *)
Ltac no_row H :=
  exfalso; apply not_appended_same in H;
  [ exact H
  | first [ reflexivity
          | apply file_at_touched
          | exact (file_at_touched (ticked _) _ _) ] ].

Lemma appended_inj (w w' : TrackBox.world) (q : string) (r r' : line) :
  TrackBox.appended w w' q r -> TrackBox.appended w w' q r' -> r = r'.
Proof.
  unfold TrackBox.appended. intros H H'. rewrite H in H'.
  apply app_inv_head in H'. now injection H'.
Qed.



(** ** The update tick, case by case *)

Lemma update_disabled (e : env) (w : TrackBox.world) :
  TrackBox.persist (TrackBox.self w) = None ->
  TrackBox.update e w = TrackBox.Done (ticked w).
Proof.
  intros Hp. unfold TrackBox.update, ticked. cbv zeta.
  cbn [TrackBox.self TrackBox.persist]. now rewrite !Hp.
Qed.

Lemma update_sound (e : env) (w : TrackBox.world) (p : TrackBox.persistence) :
  TrackBox.persist (TrackBox.self w) = Some p ->
  update_step e w p (TrackBox.update e w).
Proof.
  intros Hp. unfold TrackBox.update. fold (ticked w).
  assert (Hp' : TrackBox.persist (TrackBox.self (ticked w)) = Some p)
    by exact Hp.
  rewrite Hp'.
  destruct (save_sound e (ticked w) p Hp')
    as [Hz|Hf Hnd|Hf Hd Hio|Hf Hd Hio Hne|Hf Hd Hio Hne].
  - now apply update_zero_division.
  - cbv beta iota. rewrite Hp'. now apply update_not_due.
  - now apply update_io_error.
  - now apply update_empty_history.
  - cbn. now apply update_row.
Qed.

(** ** TrackBox.check leaves histories, persistence and files alone *)

Lemma check_all_preserves (P : Box.t -> Prop) (bs : list Box.t) (pos : pyval) :
  (forall b b', Box.history b' = Box.history b -> P b -> P b') ->
  Forall P bs -> Forall P (fst (TrackBox.check_all bs pos)).
Proof.
  intros HP. induction 1 as [|b bs Hb Hbs IH]; cbn; [constructor|].
  destruct (Box.check b pos) as [b'|x] eqn:E.
  - destruct (TrackBox.check_all bs pos) as [r' y]. cbn in *.
    constructor; [|exact IH].
    apply check_history in E. destruct E as (Hh & _). now apply (HP b).
  - cbn. now constructor.
Qed.

Lemma check_world (w : TrackBox.world) (pos : pyval) :
  let w' := TrackBox.world_of (TrackBox.check w pos) in
  TrackBox.persist (TrackBox.self w') = TrackBox.persist (TrackBox.self w) /\
  TrackBox.disk w' = TrackBox.disk w /\
  TrackBox.boxes (TrackBox.self w') =
    fst (TrackBox.check_all (TrackBox.boxes (TrackBox.self w)) pos).
Proof.
  unfold TrackBox.check.
  destruct (TrackBox.check_all (TrackBox.boxes (TrackBox.self w)) pos)
    as [bs [x|]]; cbn; auto.
Qed.

Lemma checks_world (P : Box.t -> Prop) (ps : list pyval) (w : TrackBox.world) :
  (forall b b', Box.history b' = Box.history b -> P b -> P b') ->
  let w' := fold_left (fun w p => TrackBox.world_of (TrackBox.check w p)) ps w in
  TrackBox.persist (TrackBox.self w') = TrackBox.persist (TrackBox.self w) /\
  TrackBox.disk w' = TrackBox.disk w /\
  (Forall P (TrackBox.boxes (TrackBox.self w)) ->
   Forall P (TrackBox.boxes (TrackBox.self w'))).
Proof.
  intros HP. revert w.
  induction ps as [|pos ps IH]; intros w; cbn; [auto|].
  destruct (IH (TrackBox.world_of (TrackBox.check w pos))) as (Hp & Hd & Hb).
  destruct (check_world w pos) as (Hp' & Hd' & Hb').
  cbn in *. rewrite Hp, Hd, Hp', Hd'. repeat split.
  intros Hall. apply Hb. rewrite Hb'. now apply check_all_preserves.
Qed.

(** ** Zones with a positive smoothness *)

Lemma positive_history (b b' : Box.t) :
  Box.history b' = Box.history b -> positive b -> positive b'.
Proof. unfold positive. now intros ->. Qed.

Lemma nonempty_history (b b' : Box.t) :
  Box.history b' = Box.history b -> nonempty b -> nonempty b'.
Proof. unfold nonempty. now intros ->. Qed.

Lemma positive_update (b : Box.t) :
  positive b -> positive (Box.update b) /\ nonempty (Box.update b).
Proof.
  intros [Hpos Hlen]. unfold positive, nonempty. cbn. repeat split.
  - exact Hpos.
  - now apply append_length.
  - now apply append_nonempty.
Qed.

Lemma positive_ticked (bs : list Box.t) :
  Forall positive bs ->
  Forall positive (map Box.update bs) /\ Forall nonempty (map Box.update bs).
Proof.
  induction 1 as [|b bs Hb _ [IH1 IH2]]; cbn; [split; constructor|].
  destruct (positive_update b Hb). split; now constructor.
Qed.

Lemma new_all_positive (cs : list TrackBox.box_config) (bs : list Box.t) :
  Forall (fun c => 1 <= TrackBox.cfg_smoothness c) cs ->
  TrackBox.new_all cs = Ok bs -> Forall positive bs.
Proof.
  intros Hcs. revert bs.
  induction Hcs as [|c cs Hc _ IH]; intros bs; cbn.
  - intros [= <-]. constructor.
  - destruct (TrackBox.new c) as [b|] eqn:Eb; [|discriminate].
    destruct (TrackBox.new_all cs) as [bs'|]; [|discriminate].
    intros [= <-]. constructor; [|now apply IH].
    apply init_bounded in Eb. destruct Eb as ([Hm Hlen] & _).
    unfold positive. rewrite Hm. split; [lia | exact Hlen].
Qed.

(** ** The invariant of reachable worlds *)

Lemma update_boxes (e : env) (w : TrackBox.world) :
  TrackBox.boxes (TrackBox.self (TrackBox.world_of (TrackBox.update e w))) =
  map Box.update (TrackBox.boxes (TrackBox.self w)).
Proof.
  destruct (TrackBox.persist (TrackBox.self w)) as [p|] eqn:Hp.
  - destruct (update_sound e w p Hp); reflexivity.
  - now rewrite (update_disabled e w Hp).
Qed.

Lemma update_good (e : env) (w : TrackBox.world) :
  good w -> good (TrackBox.world_of (TrackBox.update e w)).
Proof.
  intros [Hpos _]. unfold good. rewrite update_boxes.
  destruct (positive_ticked _ Hpos). split; [assumption | intros; assumption].
Qed.

Lemma save_good (e : env) (w : TrackBox.world) :
  good w -> good (TrackBox.world_of (TrackBox.save e w)).
Proof.
  intros Hw.
  destruct (TrackBox.persist (TrackBox.self w)) as [p|] eqn:Hp.
  - destruct (save_sound e w p Hp) as [| | | |Hf Hd Hio Hne];
      try exact Hw.
    destruct Hw as [Hpos _]. split; [exact Hpos | intros; exact Hne].
  - unfold TrackBox.save. now rewrite Hp.
Qed.

Lemma check_good (w : TrackBox.world) (pos : pyval) :
  good w -> good (TrackBox.world_of (TrackBox.check w pos)).
Proof.
  intros [Hpos Hne].
  destruct (check_world w pos) as (Hp & _ & Hb).
  cbv zeta in *. unfold good. rewrite Hp, Hb. split.
  - now apply (check_all_preserves positive _ _ positive_history).
  - intros p Hsome Ht.
    apply (check_all_preserves nonempty _ _ nonempty_history).
    now apply (Hne p).
Qed.

Lemma config_save_good (e : env) (w : TrackBox.world) (path : string)
    (interval fps speed : Z) (camera : bool) :
  good w ->
  good (TrackBox.world_of
          (TrackBox.config_save e w path interval fps speed camera)).
Proof.
  intros Hw. unfold TrackBox.config_save.
  destruct (io_ok e); [|exact Hw].
  destruct Hw as [Hpos _]. split; [exact Hpos|].
  cbn. intros p [= <-]. cbn. contradiction.
Qed.

Lemma reachable_good (cs : list TrackBox.box_config) (w : TrackBox.world) :
  Forall (fun c => 1 <= TrackBox.cfg_smoothness c) cs ->
  TrackBox.reachable cs w -> good w.
Proof.
  intros Hcs. induction 1 as [tb d Hinit|w c _ IH].
  - unfold TrackBox.init in Hinit.
    destruct (TrackBox.new_all cs) as [bs|] eqn:E; [|discriminate].
    injection Hinit as <-. split; cbn.
    + now apply (new_all_positive cs).
    + discriminate.
  - destruct c; cbn [TrackBox.exec].
    + now apply check_good.
    + now apply update_good.
    + now apply save_good.
    + now apply config_save_good.
Qed.

(** C10, as the code has it: in every world reachable from a [TrackBox]
    whose zones were all built with smoothness >= 1, the boxes handed to
    [save] by [update] all have a non-empty history, so every [get_value] of
    the row is the truncated mean of a non-empty sequence and [update] never
    raises [ValueError]; the row it appends holds exactly those means.  The
    same holds for a direct call of [save]: a row is written only when every
    history is non-empty, and [save] never raises [ValueError].  (A zone
    built with smoothness 0, which the code accepts, keeps an empty history:
    see [empty_history_on_persistence_path].) *)
Theorem rows_use_nonempty_histories (cs : list TrackBox.box_config)
    (w : TrackBox.world) (e : env) :
  Forall (fun c => 1 <= TrackBox.cfg_smoothness c) cs ->
  TrackBox.reachable cs w ->
  let bs := TrackBox.boxes (TrackBox.self (ticked w)) in
  Forall nonempty bs /\
  TrackBox.get_values bs = Ok (map smoothed bs) /\
  (forall w', TrackBox.update e w <> TrackBox.Raised ValueError w') /\
  (forall p r,
     TrackBox.persist (TrackBox.self w) = Some p ->
     TrackBox.appended w (TrackBox.world_of (TrackBox.update e w))
                       (TrackBox.save_path (TrackBox.conf p)) r ->
     exists t, r = Row t (map smoothed bs)) /\
  (forall w', TrackBox.save e w <> TrackBox.Raised ValueError w') /\
  (forall p r,
     TrackBox.persist (TrackBox.self w) = Some p ->
     TrackBox.appended w (TrackBox.world_of (TrackBox.save e w))
                       (TrackBox.save_path (TrackBox.conf p)) r ->
     Forall nonempty (TrackBox.boxes (TrackBox.self w)) /\
     exists t, r = Row t (map smoothed (TrackBox.boxes (TrackBox.self w)))).
Proof.
  intros Hcs Hreach bs.
  pose proof (reachable_good cs w Hcs Hreach) as [Hpos Hne].
  destruct (positive_ticked _ Hpos) as [_ Hbs]. fold bs in Hbs.
  split; [exact Hbs|].
  split; [now apply get_values_nonempty|].
  split; [|split; [|split]].
  - intros w' E.
    destruct (TrackBox.persist (TrackBox.self w)) as [p|] eqn:Hp.
    + destruct (update_sound e w p Hp); try discriminate. contradiction.
    + rewrite (update_disabled e w Hp) in E. discriminate.
  - intros p r Hp Hr.
    destruct (update_sound e w p Hp) as [| | | |Hf Hd Hio Hn];
      [no_row Hr .. |].
    exists (row_stamp e p).
    apply (appended_inj _ _ _ _ _ Hr).
    apply (appended_saved e (ticked w) p).
  - intros w' E.
    destruct (TrackBox.persist (TrackBox.self w)) as [p|] eqn:Hp.
    + destruct (save_sound e w p Hp) as [[Hf|[Ht Hi]]|? ?|? ? ?|Hf [Ht Hd] Hio Hn|];
        try discriminate.
      apply Hn. now apply (Hne p).
    + unfold TrackBox.save in E. rewrite Hp in E. discriminate.
  - intros p r Hp Hr.
    destruct (save_sound e w p Hp) as [| | | |Hf Hd Hio Hn];
      [no_row Hr .. |].
    split; [exact Hn|]. exists (row_stamp e p).
    apply (appended_inj _ _ _ _ _ Hr), appended_saved.
Qed.

(** ** The frame counter *)

Lemma update_time (e : env) (w : TrackBox.world) (p : TrackBox.persistence) :
  TrackBox.persist (TrackBox.self w) = Some p ->
  exists p',
    TrackBox.persist (TrackBox.self (TrackBox.world_of (TrackBox.update e w)))
      = Some p' /\
    TrackBox.conf p' = TrackBox.conf p /\
    (TrackBox.camera (TrackBox.conf p) = false ->
     TrackBox.time p <= TrackBox.time p').
Proof.
  intros Hp.
  destruct (update_sound e w p Hp); cbn;
    try (exists p; repeat split; [exact Hp | lia]);
    eexists; (split; [reflexivity|]); cbn; (split; [reflexivity|]).
  - lia.
  - intros ->. lia.
Qed.

Lemma tick_time (f : list pyval * env) (w : TrackBox.world)
    (p : TrackBox.persistence) :
  TrackBox.persist (TrackBox.self w) = Some p ->
  exists p',
    TrackBox.persist (TrackBox.self (TrackBox.world_of (TrackBox.tick w f)))
      = Some p' /\
    TrackBox.conf p' = TrackBox.conf p /\
    (TrackBox.camera (TrackBox.conf p) = false ->
     TrackBox.time p <= TrackBox.time p').
Proof.
  intros Hp. unfold TrackBox.tick. apply update_time.
  destruct (checks_world positive (fst f) w positive_history) as (Hp' & _).
  now rewrite Hp'.
Qed.

Lemma run_ticks_time (fs : list (list pyval * env)) (w : TrackBox.world)
    (p : TrackBox.persistence) :
  TrackBox.persist (TrackBox.self w) = Some p ->
  exists p',
    TrackBox.persist (TrackBox.self (TrackBox.run_ticks w fs)) = Some p' /\
    TrackBox.conf p' = TrackBox.conf p /\
    (TrackBox.camera (TrackBox.conf p) = false ->
     TrackBox.time p <= TrackBox.time p').
Proof.
  unfold TrackBox.run_ticks. revert w p.
  induction fs as [|f fs IH]; intros w p Hp; cbn [fold_left].
  - exists p. repeat split; [exact Hp | lia].
  - destruct (tick_time f w p Hp) as (p1 & Hp1 & Hc1 & Ht1).
    destruct (IH _ p1 Hp1) as (p2 & Hp2 & Hc2 & Ht2).
    exists p2. split; [exact Hp2|]. split; [congruence|].
    intros Hcam. specialize (Ht1 Hcam).
    rewrite Hc1 in Ht2. specialize (Ht2 Hcam). lia.
Qed.

Lemma save_counter_cases (e : env) (w : TrackBox.world)
    (p : TrackBox.persistence) (fs : list (list pyval * env)) :
  TrackBox.persist (TrackBox.self w) = Some p ->
  let path := TrackBox.save_path (TrackBox.conf p) in
  let w' := TrackBox.world_of (TrackBox.save e w) in
  let w'' := TrackBox.world_of (TrackBox.update e w) in
  (TrackBox.camera (TrackBox.conf p) = true ->
   ((exists r, TrackBox.appended w w' path r) ->
    TrackBox.save e w = TrackBox.Done w' /\ TrackBox.time_of w' = Some 0) /\
   (~ (exists r, TrackBox.appended w w' path r) ->
    TrackBox.time_of w' = Some (TrackBox.time p)) /\
   ((exists r, TrackBox.appended w w'' path r) ->
    TrackBox.time_of w'' = Some 1))
  /\
  (TrackBox.camera (TrackBox.conf p) = false ->
   TrackBox.time_of w' = Some (TrackBox.time p) /\
   exists t, TrackBox.time_of (TrackBox.run_ticks w fs) = Some t /\
             TrackBox.time p <= t).
Proof.
  intros Hp path w' w''. split; intros Hcam.
  - split; [|split].
    + intros [r Hr]. subst w'.
      destruct (save_sound e w p Hp) as [| | | |Hf Hd Hio Hn];
        [no_row Hr .. |].
      split; [reflexivity|]. unfold TrackBox.time_of. cbn.
      now rewrite Hcam.
    + intros Hno. subst w'.
      destruct (save_sound e w p Hp) as [| | | |Hf Hd Hio Hn];
        cbn [TrackBox.world_of]; unfold TrackBox.time_of;
        try (cbn; now rewrite Hp).
      exfalso. apply Hno. eexists. apply appended_saved.
    + intros [r Hr]. subst w''.
      destruct (update_sound e w p Hp) as [| | | |Hf Hd Hio Hn];
        [no_row Hr .. |].
      unfold TrackBox.time_of. cbn. now rewrite Hcam.
  - split.
    + subst w'.
      destruct (save_sound e w p Hp) as [| | | |Hf Hd Hio Hn];
        cbn [TrackBox.world_of]; unfold TrackBox.time_of;
        try (cbn; now rewrite Hp).
      cbn. now rewrite Hcam.
    + destruct (run_ticks_time fs w p Hp) as (p' & Hp' & _ & Ht).
      exists (TrackBox.time p'). split; [|now apply Ht].
      unfold TrackBox.time_of. now rewrite Hp'.
Qed.

(** One [update]: a row was appended to the configured file, or not. *)
Lemma classic_appended (e : env) (w : TrackBox.world)
    (p : TrackBox.persistence) :
  TrackBox.persist (TrackBox.self w) = Some p ->
  (exists r, TrackBox.appended w (TrackBox.world_of (TrackBox.update e w))
                               (TrackBox.save_path (TrackBox.conf p)) r) \/
  ~ (exists r, TrackBox.appended w (TrackBox.world_of (TrackBox.update e w))
                                 (TrackBox.save_path (TrackBox.conf p)) r).
Proof.
  intros Hp.
  destruct (update_sound e w p Hp) as [| | | |Hf Hd Hio Hn];
    cbn [TrackBox.world_of];
    [right; intros [r Hr]; no_row Hr .. |].
  left. eexists. apply (appended_saved e (ticked w) p).
Qed.

(** The counter after one [update], by outcome. *)
Lemma update_counter_cases (e : env) (w : TrackBox.world)
    (p : TrackBox.persistence) :
  TrackBox.persist (TrackBox.self w) = Some p ->
  let path := TrackBox.save_path (TrackBox.conf p) in
  let w'' := TrackBox.world_of (TrackBox.update e w) in
  ((exists r, TrackBox.appended w w'' path r) ->
   TrackBox.update e w = TrackBox.Done w'' /\
   TrackBox.time_of w'' =
     Some ((if TrackBox.camera (TrackBox.conf p) then 0 else TrackBox.time p)
           + 1)) /\
  (~ (exists r, TrackBox.appended w w'' path r) ->
   TrackBox.update e w = TrackBox.Done w'' ->
   TrackBox.time_of w'' = Some (TrackBox.time p + 1)) /\
  (forall x, TrackBox.update e w = TrackBox.Raised x w'' ->
   ~ (exists r, TrackBox.appended w w'' path r) /\
   TrackBox.time_of w'' = Some (TrackBox.time p)).
Proof.
  intros Hp path w''. subst w'' path.
  assert (Ht : TrackBox.time_of (ticked w) = Some (TrackBox.time p)).
  { unfold TrackBox.time_of. cbn. now rewrite Hp. }
  destruct (update_sound e w p Hp) as [| | | |Hf Hd Hio Hn];
    cbn [TrackBox.world_of].
  - split; [intros [r Hr]; no_row Hr|]. split; [discriminate|].
    intros x _. split; [intros [r Hr]; no_row Hr | exact Ht].
  - split; [intros [r Hr]; no_row Hr|]. split; [reflexivity|].
    discriminate.
  - split; [intros [r Hr]; no_row Hr|]. split; [discriminate|].
    intros x _. split; [intros [r Hr]; no_row Hr | exact Ht].
  - split; [intros [r Hr]; no_row Hr|]. split; [discriminate|].
    intros x _. split; [intros [r Hr]; no_row Hr | exact Ht].
  - split; [intros _; split; reflexivity|]. split; [|discriminate].
    intros Hno. exfalso. apply Hno. eexists.
    apply (appended_saved e (ticked w) p).
Qed.

(** C4: with persistence enabled, in camera mode [save] sets the frame
    counter to 0 exactly when it has written its row (the call then returns
    normally) and leaves the counter alone when it has written nothing.  The
    [update] around it then leaves the counter at 1 when the row was
    written, at the old value plus 1 when nothing was written and the call
    returned, and at the old value when the call raised (nothing is written
    then): the counter goes back to 0 after a written row and at no other
    tick.  In non-camera mode [save] never changes the counter, [update]
    adds 1 when it returns and leaves the counter alone when it raises, and
    over any sequence of ticks the counter never decreases. *)
Theorem elapsed_frames_policy (e : env) (w : TrackBox.world)
    (p : TrackBox.persistence) (fs : list (list pyval * env)) :
  TrackBox.persist (TrackBox.self w) = Some p ->
  let path := TrackBox.save_path (TrackBox.conf p) in
  let w' := TrackBox.world_of (TrackBox.save e w) in
  let w'' := TrackBox.world_of (TrackBox.update e w) in
  (TrackBox.camera (TrackBox.conf p) = true ->
   ((exists r, TrackBox.appended w w' path r) ->
    TrackBox.save e w = TrackBox.Done w' /\ TrackBox.time_of w' = Some 0) /\
   (~ (exists r, TrackBox.appended w w' path r) ->
    TrackBox.time_of w' = Some (TrackBox.time p)) /\
   ((exists r, TrackBox.appended w w'' path r) ->
    TrackBox.update e w = TrackBox.Done w'' /\
    TrackBox.time_of w'' = Some 1) /\
   (~ (exists r, TrackBox.appended w w'' path r) ->
    TrackBox.update e w = TrackBox.Done w'' ->
    TrackBox.time_of w'' = Some (TrackBox.time p + 1)) /\
   (forall x, TrackBox.update e w = TrackBox.Raised x w'' ->
    ~ (exists r, TrackBox.appended w w'' path r) /\
    TrackBox.time_of w'' = Some (TrackBox.time p)))
  /\
  (TrackBox.camera (TrackBox.conf p) = false ->
   TrackBox.time_of w' = Some (TrackBox.time p) /\
   (TrackBox.update e w = TrackBox.Done w'' ->
    TrackBox.time_of w'' = Some (TrackBox.time p + 1)) /\
   (forall x, TrackBox.update e w = TrackBox.Raised x w'' ->
    TrackBox.time_of w'' = Some (TrackBox.time p)) /\
   exists t, TrackBox.time_of (TrackBox.run_ticks w fs) = Some t /\
             TrackBox.time p <= t).
Proof.
  intros Hp path w' w''.
  destruct (save_counter_cases e w p fs Hp) as (Hcamera & Hvideo).
  destruct (update_counter_cases e w p Hp) as (Hrow & Hnone & Hraise).
  fold path w'' in Hrow, Hnone, Hraise.
  split; intros Hcam.
  - destruct (Hcamera Hcam) as (H1 & H2 & _).
    split; [exact H1|]. split; [exact H2|]. split; [|split].
    + intros Happ. destruct (Hrow Happ) as (Hd & Ht).
      rewrite Hcam in Ht. now split.
    + exact Hnone.
    + exact Hraise.
  - destruct (Hvideo Hcam) as (H1 & H2).
    split; [exact H1|]. split; [|split; [|exact H2]].
    + intros Hdone.
      destruct (classic_appended e w p Hp) as [Happ|Hno].
      * destruct (Hrow Happ) as (_ & Ht). now rewrite Hcam in Ht.
      * now apply Hnone.
    + intros x Hx. now apply (Hraise x).
Qed.

(** ** Scenario B: fps 10, speed 1, interval 2, no camera *)

Lemma scenario_due (n : Z) :
  TrackBox.spec_due n 1 10 2 <-> n <> 0 /\ n mod 20 = 0.
Proof.
  unfold TrackBox.spec_due.
  rewrite (real_mod_zero_iff (n * 1) 10 2) by lia.
  rewrite Z.mul_1_r. change (10 * 2) with 20.
  rewrite <- (Z.mod_divide n 20) by lia. tauto.
Qed.

Lemma scenario_stamp (e : env) (path : string) (n : Z) :
  row_stamp e {| TrackBox.time := n; TrackBox.conf := scenario_conf path |} =
  Second (Z.quot n 10).
Proof.
  unfold row_stamp, int_of_float. cbn. now rewrite !Z.mul_1_r.
Qed.

Lemma scenario_tick (path : string) (n : Z) (w : TrackBox.world)
    (f : list pyval * env) :
  TrackBox.persist (TrackBox.self w) =
    Some {| TrackBox.time := n; TrackBox.conf := scenario_conf path |} ->
  Forall positive (TrackBox.boxes (TrackBox.self w)) ->
  io_ok (snd f) = true ->
  let w' := TrackBox.world_of (TrackBox.tick w f) in
  TrackBox.persist (TrackBox.self w') =
    Some {| TrackBox.time := n + 1; TrackBox.conf := scenario_conf path |} /\
  Forall positive (TrackBox.boxes (TrackBox.self w')) /\
  (n <> 0 /\ n mod 20 = 0 ->
   TrackBox.appended w w' path
     (Row (Second (Z.quot n 10))
          (map smoothed (TrackBox.boxes (TrackBox.self w'))))) /\
  (~ (n <> 0 /\ n mod 20 = 0) -> TrackBox.disk w' = TrackBox.disk w).
Proof.
  intros Hp Hpos Hio w'. subst w'. unfold TrackBox.tick.
  destruct (checks_world positive (fst f) w positive_history)
    as (Hpc & Hdc & Hbc).
  set (wc := fold_left (fun w p => TrackBox.world_of (TrackBox.check w p))
                       (fst f) w) in *.
  rewrite <- Hpc in Hp. specialize (Hbc Hpos).
  destruct (positive_ticked _ Hbc) as [Hpt Hnt].
  unfold TrackBox.appended. rewrite <- Hdc.
  destruct (update_sound (snd f) wc _ Hp)
    as [[Hf|[_ Hi]]|Hf Hnd|Hf Hd Hio'|Hf Hd _ Hn|Hf Hd _ _];
    try discriminate; try congruence; try contradiction;
    cbn [TrackBox.world_of].
  - unfold is_due in Hnd. cbn in Hnd. rewrite scenario_due in Hnd.
    repeat split; [exact Hpt | tauto].
  - unfold is_due in Hd. cbn in Hd. rewrite scenario_due in Hd.
    repeat split; [exact Hpt | | tauto].
    intros _. cbn -[row_stamp].
    now rewrite file_at_insert, scenario_stamp.
Qed.

Lemma scenario_run (path : string) (fs : list (list pyval * env))
    (n : Z) (w : TrackBox.world) :
  TrackBox.persist (TrackBox.self w) =
    Some {| TrackBox.time := n; TrackBox.conf := scenario_conf path |} ->
  Forall positive (TrackBox.boxes (TrackBox.self w)) ->
  Forall (fun f => io_ok (snd f) = true) fs ->
  let w' := TrackBox.run_ticks w fs in
  TrackBox.persist (TrackBox.self w') =
    Some {| TrackBox.time := n + Z.of_nat (length fs);
            TrackBox.conf := scenario_conf path |} /\
  Forall positive (TrackBox.boxes (TrackBox.self w')).
Proof.
  unfold TrackBox.run_ticks. intros Hp Hpos Hio. revert n w Hp Hpos.
  induction Hio as [|f fs Hf _ IH]; intros n w Hp Hpos; cbn [fold_left length].
  - rewrite Z.add_0_r. now split.
  - destruct (scenario_tick path n w f Hp Hpos Hf) as (Hp' & Hpos' & _).
    destruct (IH (n + 1) _ Hp' Hpos') as (Hp2 & Hpos2).
    split; [|exact Hpos2]. rewrite Hp2. do 2 f_equal. lia.
Qed.

(** C5 (scenario B): persistence enabled with fps = 10, speed = 1,
    interval = 2, no camera, then one tick per frame (the zones having been
    built with smoothness >= 1 and the file being writable).  Before the
    tick number n (counting from 0) the frame counter is n; that tick
    appends a row exactly when n is 20 k for some k >= 1, i.e. n = 20, 40,
    60, ..., and the row then starts with the integer second 2 k, i.e. 2, 4,
    6, ...; any other tick leaves the files as they are. *)
Theorem scenario_persistence_timing (cs : list TrackBox.box_config)
    (w0 : TrackBox.world) (e0 : env) (path : string)
    (fs : list (list pyval * env)) (f : list pyval * env) :
  Forall (fun c => 1 <= TrackBox.cfg_smoothness c) cs ->
  TrackBox.reachable cs w0 ->
  io_ok e0 = true ->
  Forall (fun f => io_ok (snd f) = true) (fs ++ [f]) ->
  let w1 := TrackBox.world_of
              (TrackBox.config_save e0 w0 path 2 10 1 false) in
  let w := TrackBox.run_ticks w1 fs in
  let n := Z.of_nat (length fs) in
  let w' := TrackBox.world_of (TrackBox.tick w f) in
  TrackBox.time_of w = Some n /\
  TrackBox.time_of w' = Some (n + 1) /\
  (forall k, 1 <= k -> n = 20 * k ->
     exists vs, TrackBox.appended w w' path (Row (Second (2 * k)) vs)) /\
  ((forall k, 1 <= k -> n <> 20 * k) -> TrackBox.disk w' = TrackBox.disk w).
Proof.
  intros Hcs Hreach Hio0 Hio w1 w n w'.
  apply Forall_app in Hio. destruct Hio as [Hfs Hf].
  apply Forall_inv in Hf.
  pose proof (reachable_good cs w0 Hcs Hreach) as [Hpos0 _].
  assert (Hp1 : TrackBox.persist (TrackBox.self w1) =
                Some {| TrackBox.time := 0;
                        TrackBox.conf := scenario_conf path |}).
  { unfold w1, TrackBox.config_save. now rewrite Hio0. }
  assert (Hpos1 : Forall positive (TrackBox.boxes (TrackBox.self w1))).
  { unfold w1, TrackBox.config_save. now rewrite Hio0. }
  destruct (scenario_run path fs 0 w1 Hp1 Hpos1 Hfs) as (Hp & Hpos).
  fold w in Hp, Hpos. rewrite Z.add_0_l in Hp. fold n in Hp.
  destruct (scenario_tick path n w f Hp Hpos Hf) as (Hp' & _ & Hw & Hnw).
  fold w' in Hp', Hw, Hnw.
  split; [unfold TrackBox.time_of; now rewrite Hp|].
  split; [unfold TrackBox.time_of; now rewrite Hp'|].
  split.
  - intros k Hk Hn. eexists.
    replace (2 * k) with (Z.quot n 10)
      by (rewrite Hn; replace (20 * k) with (2 * k * 10) by lia;
          apply Z.quot_mul; lia).
    apply Hw. split; [lia|].
    rewrite Hn, Z.mul_comm. now apply Z.mod_mul.
  - intros Hnone. apply Hnw. intros [Hn0 Hmod].
    apply (Hnone (n / 20)).
    + assert (0 <= n) by lia.
      pose proof (Z.div_mod n 20 ltac:(lia)). lia.
    + pose proof (Z.div_mod n 20 ltac:(lia)). lia.
Qed.

(** ** Enabling persistence *)

Lemma update_appends_rows (e : env) (w : TrackBox.world) (q : string) :
  exists rows,
    TrackBox.file_at
      (TrackBox.disk (TrackBox.world_of (TrackBox.update e w))) q =
    TrackBox.file_at (TrackBox.disk w) q ++ rows /\
    Forall is_row rows /\ (length rows <= 1)%nat.
Proof.
  destruct (TrackBox.persist (TrackBox.self w)) as [p|] eqn:Hp.
  - destruct (update_sound e w p Hp) as [| | | |Hf Hd Hio Hn];
      cbn [TrackBox.world_of].
    1-3: exists []; rewrite app_nil_r; cbn; auto.
    + exists []. rewrite app_nil_r, (file_at_touched (ticked w) p).
      cbn. auto.
    + cbn -[row_stamp].
      destruct (decide (TrackBox.save_path (TrackBox.conf p) = q)) as [<-|Hne].
      * eexists. rewrite file_at_insert. split; [reflexivity|].
        split; [repeat constructor | cbn; lia].
      * exists []. rewrite app_nil_r, file_at_insert_ne by exact Hne.
        cbn. auto.
  - rewrite (update_disabled e w Hp). exists []. rewrite app_nil_r.
    cbn. auto.
Qed.

(** C6, as the code has it: [config_save] has no once-only guard.  Every
    call that can open the file returns normally, whether persistence was
    already enabled or not: it truncates the destination to the single
    header row, sets the frame counter to 0 and replaces the stored
    configuration.  An [update] never writes a header: it leaves each file
    as it is or appends one data row. *)
Theorem config_save_repeatable (e e' : env) (w w2 : TrackBox.world)
    (path q : string) (interval fps speed : Z) (camera : bool) :
  io_ok e = true ->
  let w' := TrackBox.world_of
              (TrackBox.config_save e w path interval fps speed camera) in
  TrackBox.config_save e w path interval fps speed camera = TrackBox.Done w'
  /\
  TrackBox.file_at (TrackBox.disk w') path =
    [Header camera (map Box.name (TrackBox.boxes (TrackBox.self w)))]
  /\
  TrackBox.persist (TrackBox.self w') =
    Some {| TrackBox.time := 0;
            TrackBox.conf := stored_conf path interval fps speed camera |}
  /\
  exists rows,
    TrackBox.file_at
      (TrackBox.disk (TrackBox.world_of (TrackBox.update e' w2))) q =
    TrackBox.file_at (TrackBox.disk w2) q ++ rows /\
    Forall is_row rows /\ (length rows <= 1)%nat.
Proof.
  intros Hio w'. subst w'. unfold TrackBox.config_save. rewrite Hio.
  cbn [TrackBox.world_of TrackBox.disk TrackBox.self TrackBox.persist].
  split; [reflexivity|]. split; [apply file_at_insert|].
  split; [reflexivity|]. apply update_appends_rows.
Qed.

(** C2, as the code has it: [config_save] validates nothing.  Called with
    interval <= 0 or fps <= 0 it returns normally when the file can be
    opened: the header is written and persistence is enabled with the
    values as given (speed raised to 1 at least) and the frame counter at 0.
    Only a failure to open the file makes it raise, and then nothing has
    changed. *)
Theorem config_save_unvalidated (e : env) (w : TrackBox.world)
    (path : string) (interval fps speed : Z) (camera : bool) :
  interval <= 0 \/ fps <= 0 ->
  (io_ok e = true ->
   TrackBox.config_save e w path interval fps speed camera =
   TrackBox.Done
     {| TrackBox.self :=
          {| TrackBox.boxes := TrackBox.boxes (TrackBox.self w);
             TrackBox.persist :=
               Some {| TrackBox.time := 0;
                       TrackBox.conf :=
                         stored_conf path interval fps speed camera |} |};
        TrackBox.disk :=
          <[path := [Header camera
                       (map Box.name (TrackBox.boxes (TrackBox.self w)))]]>
            (TrackBox.disk w) |})
  /\
  (io_ok e = false ->
   TrackBox.config_save e w path interval fps speed camera =
   TrackBox.Raised OSError w).
Proof.
  intros _. unfold TrackBox.config_save.
  split; intros ->; reflexivity.
Qed.

(** The failure the missing validation defers: with [fps = 0] every tick
    raises [ZeroDivisionError], and with [interval = 0] every tick after the
    first does. *)
Lemma update_zero_config (e : env) (w : TrackBox.world)
    (p : TrackBox.persistence) :
  TrackBox.persist (TrackBox.self w) = Some p ->
  TrackBox.fps (TrackBox.conf p) = 0 \/
  (TrackBox.time p <> 0 /\ TrackBox.interval (TrackBox.conf p) = 0) ->
  TrackBox.update e w = TrackBox.Raised ZeroDivisionError (ticked w).
Proof.
  intros Hp Hz. unfold TrackBox.update. fold (ticked w).
  assert (Hp' : TrackBox.persist (TrackBox.self (ticked w)) = Some p)
    by exact Hp.
  rewrite Hp'. unfold TrackBox.save. rewrite Hp'. unfold truediv.
  destruct (Z.eqb_spec (TrackBox.fps (TrackBox.conf p)) 0) as [|Hf];
    [reflexivity|].
  destruct Hz as [|(Ht & Hi)]; [contradiction|].
  now rewrite Hi, due_raises by exact Ht.
Qed.

(** ** Concrete runs *)

Example render_header :
  render (Header false ["door"; "desk"]) = "second,door,desk" +:+ newline.
Proof. reflexivity. Qed.

Example render_row :
  render (Row (Second 2) [4; 0]) = "2,4,0" +:+ newline.
Proof. reflexivity. Qed.

Example sixty_one_ticks :
  TrackBox.file_at
    (TrackBox.disk (TrackBox.run_ticks enabled (repeat one_inside 61)))
    "out.csv" =
  [Header false ["door"]; Row (Second 2) [1]; Row (Second 4) [1];
   Row (Second 6) [1]].
Proof. vm_compute. reflexivity. Qed.

Lemma fresh_reachable : TrackBox.reachable [door_config] fresh.
Proof. apply TrackBox.reach_init. reflexivity. Qed.

Lemma door_config_positive :
  Forall (fun c => 1 <= TrackBox.cfg_smoothness c) [door_config].
Proof. constructor; [discriminate | constructor]. Qed.



Lemma elapsed_frames_policy_witness :
  TrackBox.time_of
    (TrackBox.world_of (TrackBox.save env_ok (at_frame_20 true))) = Some 0
  /\
  exists t,
    TrackBox.time_of
      (TrackBox.run_ticks (at_frame_20 false) (repeat one_inside 5)) = Some t
    /\ 20 <= t.
Proof.
  split.
  - apply (proj1 (elapsed_frames_policy env_ok (at_frame_20 true) _ []
                    eq_refl) eq_refl).
    exists (Row (Clock "12:00:00") [4]). reflexivity.
  - apply (proj2 (elapsed_frames_policy env_ok (at_frame_20 false) _
                    (repeat one_inside 5) eq_refl) eq_refl).
Defined.

Lemma scenario_persistence_timing_witness :
  exists vs,
    TrackBox.appended
      (TrackBox.run_ticks enabled (repeat one_inside 40))
      (TrackBox.world_of
         (TrackBox.tick (TrackBox.run_ticks enabled (repeat one_inside 40))
                        one_inside))
      "out.csv" (Row (Second 4) vs).
Proof.
  apply (proj1 (proj2 (proj2
           (scenario_persistence_timing [door_config] fresh env_ok "out.csv"
              (repeat one_inside 40) one_inside
              door_config_positive fresh_reachable eq_refl
              ltac:(repeat constructor)))) 2).
  - lia.
  - reflexivity.
Defined.

Lemma rows_use_nonempty_histories_witness :
  TrackBox.get_values (map Box.update [door]) = Ok [0].
Proof.
  apply (proj1 (proj2 (rows_use_nonempty_histories [door_config] fresh env_ok
                         door_config_positive fresh_reachable))).
Defined.

Lemma config_save_repeatable_witness :
  TrackBox.config_save env_ok enabled "out.csv" 2 10 1 false =
  TrackBox.Done enabled.
Proof.
  apply (config_save_repeatable env_ok env_ok enabled fresh "out.csv" "out.csv"
           2 10 1 false eq_refl).
Defined.

Lemma config_save_unvalidated_witness :
  TrackBox.config_save env_ok fresh "out.csv" 0 0 1 false =
  TrackBox.Done
    {| TrackBox.self :=
         {| TrackBox.boxes := [door];
            TrackBox.persist :=
              Some {| TrackBox.time := 0;
                      TrackBox.conf := stored_conf "out.csv" 0 0 1 false |} |};
       TrackBox.disk := {["out.csv" := [Header false ["door"]]]} |}.
Proof.
  apply (proj1 (config_save_unvalidated env_ok fresh "out.csv" 0 0 1 false
                  (or_introl (Z.le_refl 0))) eq_refl).
Defined.

(** C2, as the specification states it, fails: with [interval = 0] the call
    returns normally and persistence is enabled. *)
Lemma config_save_accepts_zero_interval :
  TrackBox.persist (TrackBox.self fresh) = None /\
  exists w',
    TrackBox.config_save env_ok fresh "out.csv" 0 10 1 false =
      TrackBox.Done w' /\
    TrackBox.persist (TrackBox.self w') =
      Some {| TrackBox.time := 0;
              TrackBox.conf := stored_conf "out.csv" 0 10 1 false |} /\
    TrackBox.file_at (TrackBox.disk w') "out.csv" = [Header false ["door"]].
Proof.
  split; [reflexivity|]. eexists. split; [reflexivity|].
  split; reflexivity.
Qed.

(** C6, as the specification states it, fails: a second [config_save], 21
    ticks after the first, returns normally, and the row written in between
    is gone from the file. *)
Lemma config_save_twice_succeeds :
  TrackBox.file_at
    (TrackBox.disk (TrackBox.run_ticks enabled (repeat one_inside 21)))
    "out.csv" = [Header false ["door"]; Row (Second 2) [1]]
  /\
  TrackBox.time_of (TrackBox.run_ticks enabled (repeat one_inside 21)) =
    Some 21
  /\
  exists w',
    TrackBox.config_save env_ok
      (TrackBox.run_ticks enabled (repeat one_inside 21))
      "out.csv" 2 10 1 false = TrackBox.Done w' /\
    TrackBox.file_at (TrackBox.disk w') "out.csv" = [Header false ["door"]] /\
    TrackBox.time_of w' = Some 0.
Proof.
  split; [vm_compute; reflexivity|]. split; [vm_compute; reflexivity|].
  eexists. split; [reflexivity|]. split; vm_compute; reflexivity.
Qed.

Lemma checks_reachable (cs : list TrackBox.box_config) (ps : list pyval)
    (w : TrackBox.world) :
  TrackBox.reachable cs w ->
  TrackBox.reachable cs
    (fold_left (fun w p => TrackBox.world_of (TrackBox.check w p)) ps w).
Proof.
  revert w. induction ps as [|pos ps IH]; intros w Hw; cbn [fold_left];
    [exact Hw|].
  apply IH. exact (TrackBox.reach_call cs w (TrackBox.CallCheck pos) Hw).
Qed.

Lemma run_ticks_reachable (cs : list TrackBox.box_config)
    (fs : list (list pyval * env)) (w : TrackBox.world) :
  TrackBox.reachable cs w -> TrackBox.reachable cs (TrackBox.run_ticks w fs).
Proof.
  unfold TrackBox.run_ticks. revert w.
  induction fs as [|f fs IH]; intros w Hw; cbn [fold_left]; [exact Hw|].
  apply IH. unfold TrackBox.tick.
  exact (TrackBox.reach_call cs _ (TrackBox.CallUpdate (snd f))
           (checks_reachable cs (fst f) w Hw)).
Qed.

Lemma still_at_20_reachable : TrackBox.reachable [still_config] still_at_20.
Proof.
  apply run_ticks_reachable.
  apply (TrackBox.reach_call [still_config] still
           (TrackBox.CallConfigSave env_ok "out.csv" 2 10 1 false)).
  apply TrackBox.reach_init. reflexivity.
Qed.

(** C10, as the specification states it, fails: a [TrackBox] whose zone was
    built with smoothness 0 reaches, after [config_save] and 20 frames, a
    world in which the next [update] runs [save] at a due counter with an
    empty history: [get_value] is evaluated on the empty history on the
    persistence path and the call raises [ValueError]. *)
Lemma empty_history_on_persistence_path :
  TrackBox.reachable [still_config] still_at_20 /\
  TrackBox.time_of still_at_20 = Some 20 /\
  map (fun b => Deque.items (Box.history b))
      (TrackBox.boxes (TrackBox.self (ticked still_at_20))) = [[]] /\
  TrackBox.save env_ok (ticked still_at_20) =
    TrackBox.Raised ValueError
      (touched (ticked still_at_20)
         {| TrackBox.time := 20; TrackBox.conf := scenario_conf "out.csv" |})
  /\
  TrackBox.update env_ok still_at_20 =
    TrackBox.Raised ValueError
      (touched (ticked still_at_20)
         {| TrackBox.time := 20; TrackBox.conf := scenario_conf "out.csv" |}).
Proof.
  split; [exact still_at_20_reachable|].
  split; [vm_compute; reflexivity|].
  split; [vm_compute; reflexivity|].
  split; vm_compute; reflexivity.
Qed.

(** * Further properties of the code *)

(** ** The history is a sliding window *)

Lemma lastn_short (n : nat) (l : list Z) :
  (length l <= n)%nat -> lastn n l = l.
Proof.
  intros H. unfold lastn. now replace (length l - n)%nat with 0%nat by lia.
Qed.

Lemma lastn_length (n : nat) (l : list Z) :
  length (lastn n l) = Nat.min n (length l).
Proof. unfold lastn. rewrite length_skipn. lia. Qed.

Lemma lastn_app_lastn (n : nat) (l xs : list Z) :
  lastn n (lastn n l ++ xs) = lastn n (l ++ xs).
Proof.
  unfold lastn at 1 3.
  rewrite !length_app, lastn_length.
  unfold lastn.
  set (k := (length l - n)%nat).
  assert (Hk : (k <= length l)%nat) by (unfold k; lia).
  assert (E : skipn k l ++ xs = skipn k (l ++ xs)).
  { rewrite skipn_app. replace (k - length l)%nat with 0%nat by lia.
    reflexivity. }
  rewrite E, skipn_skipn. f_equal. unfold k. lia.
Qed.

Lemma append_lastn (d : Deque.t) (x : Z) :
  (length (Deque.items d) <= Deque.maxlen d)%nat ->
  Deque.items (Deque.append d x) =
  lastn (Deque.maxlen d) (Deque.items d ++ [x]).
Proof.
  intros Hlen. unfold Deque.append, lastn. cbn [Deque.items].
  rewrite length_app. cbn [length].
  destruct (Nat.ltb_spec (Deque.maxlen d) (length (Deque.items d) + 1)).
  - replace (length (Deque.items d) + 1 - Deque.maxlen d)%nat with 1%nat
      by lia.
    now destruct (Deque.items d ++ [x]).
  - now replace (length (Deque.items d) + 1 - Deque.maxlen d)%nat with 0%nat
      by lia.
Qed.

Lemma frames_window (pss : list (list pyval)) (b : Box.t) :
  Box.count b = 0 ->
  (length (Deque.items (Box.history b)) <= Deque.maxlen (Box.history b))%nat ->
  let b' := box_frames b pss in
  Deque.items (Box.history b') =
    lastn (Deque.maxlen (Box.history b))
          (Deque.items (Box.history b) ++
           map (fun ps => Z.of_nat (Box.hits b ps)) pss) /\
  Deque.maxlen (Box.history b') = Deque.maxlen (Box.history b) /\
  Box.count b' = 0 /\ Box.xyxy b' = Box.xyxy b /\ Box.name b' = Box.name b.
Proof.
  unfold box_frames. revert b.
  induction pss as [|ps pss IH]; intros b Hc Hlen; cbn [fold_left map].
  - rewrite app_nil_r, lastn_short by exact Hlen. auto.
  - specialize (IH (Box.frame b ps)). rewrite frame_spec in IH.
    cbn [Box.count Box.history Box.xyxy Box.name] in IH.
    change (Deque.maxlen (Deque.append (Box.history b)
                            (Box.count b + Z.of_nat (Box.hits b ps))))
      with (Deque.maxlen (Box.history b)) in IH.
    rewrite frame_spec.
    destruct IH as (Hi & Hm & Hc' & Hx & Hn);
      [reflexivity | now apply append_length |].
    rewrite Hi, Hm, Hc', Hx, Hn. repeat split.
    rewrite append_lastn by exact Hlen.
    rewrite Hc, Z.add_0_l, lastn_app_lastn, <- app_assoc. cbn [app].
    reflexivity.
Qed.

(** X1: a zone built with smoothness [s >= 0] that has processed any number
    of frames holds in its history exactly the counts of the last [s]
    frames (all of them while fewer than [s] frames were seen), oldest
    first, each count being the number of checked positions inside the
    rectangle; its running count is 0 and its rectangle is as built. *)
Theorem history_is_sliding_window
    (name : string) (top_left bottom_right : list Z) (smoothness : Z)
    (b0 : Box.t) (pss : list (list pyval)) :
  Box.init name top_left bottom_right smoothness = Ok b0 ->
  let b := box_frames b0 pss in
  Deque.items (Box.history b) =
    lastn (Z.to_nat smoothness)
          (map (fun ps => Z.of_nat (Box.hits b0 ps)) pss) /\
  Box.count b = 0 /\
  Box.xyxy b = top_left ++ bottom_right.
Proof.
  intros Hinit b.
  apply init_bounded in Hinit.
  destruct Hinit as ([Hm Hlen] & _ & Hitems & Hc & Hx & _).
  destruct (frames_window pss b0 Hc) as (Hi & _ & Hc' & Hx' & _).
  { rewrite Hm. exact Hlen. }
  fold b in Hi, Hc', Hx'.
  rewrite Hi, Hm, Hitems, Hc', Hx', Hx. auto.
Qed.

Lemma history_is_sliding_window_witness :
  Deque.items (Box.history
    (box_frames door
       [[PSeq [1; 1]]; []; [PSeq [2; 2]; PInt 3]; [PSeq [11; 0]];
        [PInt 0; PInt 5; PInt 10]])) = [2; 0; 3].
Proof.
  apply (history_is_sliding_window "door" [0; 0] [10; 10] 3 door
           [[PSeq [1; 1]]; []; [PSeq [2; 2]; PInt 3]; [PSeq [11; 0]];
            [PInt 0; PInt 5; PInt 10]] eq_refl).
Defined.

(** ** Smoothness 0 *)

(** X2: a zone built with smoothness 0 never records anything: after any
    calls of [check] and [update] its history is still empty, so
    [get_value] raises [ValueError] every time. *)
Theorem smoothness_zero_never_has_value
    (name : string) (top_left bottom_right : list Z) (b0 : Box.t)
    (os : list Box.op) :
  Box.init name top_left bottom_right 0 = Ok b0 ->
  Deque.items (Box.history (Box.run b0 os)) = [] /\
  Box.get_value (Box.run b0 os) = Raise ValueError.
Proof.
  intros Hinit. apply init_bounded in Hinit. destruct Hinit as (Hb & _).
  destruct (run_bounded _ os b0 Hb) as [_ Hlen].
  assert (E : Deque.items (Box.history (Box.run b0 os)) = []).
  { destruct (Deque.items (Box.history (Box.run b0 os)));
      [reflexivity | cbn in Hlen; lia]. }
  split; [exact E | now apply get_value_empty].
Qed.

Lemma smoothness_zero_never_has_value_witness :
  Box.get_value
    (Box.run (Box.mk "door" [0; 0; 10; 10] (Deque.mk 0 []) 0)
             [Box.DoCheck (PInt 1); Box.DoUpdate; Box.DoUpdate]) =
  Raise ValueError.
Proof.
  apply (smoothness_zero_never_has_value "door" [0; 0] [10; 10]
           (Box.mk "door" [0; 0; 10; 10] (Deque.mk 0 []) 0)
           [Box.DoCheck (PInt 1); Box.DoUpdate; Box.DoUpdate] eq_refl).
Defined.

(** ** The smoothed value stays inside the window *)

Lemma py_sum_bounds (lo hi : Z) (l : list Z) :
  Forall (fun x => lo <= x <= hi) l ->
  Z.of_nat (length l) * lo <= py_sum l <= Z.of_nat (length l) * hi.
Proof.
  induction 1 as [|x l Hx _ IH]; cbn [py_sum fold_right length].
  - lia.
  - fold (py_sum l). lia.
Qed.

Lemma quot_between (n s lo hi : Z) :
  0 < n -> n * lo <= s <= n * hi -> lo <= Z.quot s n <= hi.
Proof.
  intros Hn Hs.
  pose proof (Z.quot_rem' s n) as E.
  destruct (Z.le_gt_cases 0 s) as [Hs0|Hs0].
  - pose proof (Z.rem_bound_pos s n Hs0 Hn). nia.
  - pose proof (Z.rem_bound_pos_neg s n Hn ltac:(lia)). nia.
Qed.

(** X3: when every count in a non-empty history lies between [lo] and
    [hi], and the counts are in the range where the float64 mean is exact
    (their absolute values sum to less than 2^53), [get_value] returns a
    value between [lo] and [hi]: smoothing never leaves the range of the
    counts it averages (in particular a window of equal counts [c] gives
    [c]). *)
Theorem get_value_within_window (b : Box.t) (lo hi : Z) :
  Deque.items (Box.history b) <> [] ->
  float_exact (Deque.items (Box.history b)) ->
  Forall (fun x => lo <= x <= hi) (Deque.items (Box.history b)) ->
  exists v, Box.get_value b = Ok v /\ lo <= v <= hi.
Proof.
  intros Hne _ Hall. exists (trunc_mean (Deque.items (Box.history b))).
  split; [now apply get_value_nonempty|].
  unfold trunc_mean. apply quot_between.
  - destruct (Deque.items (Box.history b)); [congruence | cbn; lia].
  - now apply py_sum_bounds.
Qed.

Lemma get_value_within_window_witness :
  exists v,
    Box.get_value (Box.mk "door" [0; 0; 10; 10] (Deque.mk 3 [7; 7; 7]) 2) =
      Ok v /\ 7 <= v <= 7.
Proof.
  apply (get_value_within_window
           (Box.mk "door" [0; 0; 10; 10] (Deque.mk 3 [7; 7; 7]) 2) 7 7).
  - discriminate.
  - split; reflexivity.
  - repeat constructor; cbn; lia.
Defined.

(** ** Counts are never negative *)

Lemma step_counts_nonneg (b : Box.t) (o : Box.op) :
  counts_nonneg b -> counts_nonneg (Box.step b o).
Proof.
  intros [Hc Hh]. destruct o as [pos|].
  - rewrite step_check. split; cbn; [|exact Hh].
    destruct (Box.hit b pos); lia.
  - split; [cbn; lia|].
    assert (Hall : Forall (fun x => 0 <= x)
                          (Deque.items (Box.history b) ++ [Box.count b])).
    { apply Forall_app. split; [exact Hh | now repeat constructor]. }
    cbn [Box.step Box.update Box.history]. unfold Deque.append.
    cbn [Deque.items].
    destruct (Nat.ltb (Deque.maxlen (Box.history b))
                      (length (Deque.items (Box.history b) ++ [Box.count b])));
      [|exact Hall].
    destruct (Deque.items (Box.history b) ++ [Box.count b]);
      [constructor | now inversion Hall].
Qed.

Lemma run_counts_nonneg (os : list Box.op) (b : Box.t) :
  counts_nonneg b -> counts_nonneg (Box.run b os).
Proof.
  unfold Box.run. revert b.
  induction os as [|o os IH]; intros b Hb; cbn; [exact Hb|].
  now apply IH, step_counts_nonneg.
Qed.

Lemma py_sum_nonneg (l : list Z) :
  Forall (fun x => 0 <= x) l -> 0 <= py_sum l.
Proof.
  induction 1 as [|x l Hx _ IH]; cbn [py_sum fold_right]; [lia|].
  fold (py_sum l). lia.
Qed.

(** X4: whatever calls of [check] and [update] a zone has received since it
    was built, its running count and every count in its history are >= 0,
    and a value returned by [get_value] is >= 0. *)
Theorem counts_never_negative
    (name : string) (top_left bottom_right : list Z) (smoothness : Z)
    (b0 : Box.t) (os : list Box.op) :
  Box.init name top_left bottom_right smoothness = Ok b0 ->
  let b := Box.run b0 os in
  0 <= Box.count b /\
  Forall (fun x => 0 <= x) (Deque.items (Box.history b)) /\
  (forall v, Box.get_value b = Ok v -> 0 <= v).
Proof.
  intros Hinit b.
  apply init_bounded in Hinit. destruct Hinit as (_ & _ & Hi & Hc & _).
  assert (H0 : counts_nonneg b0).
  { split; [lia | rewrite Hi; constructor]. }
  destruct (run_counts_nonneg os b0 H0) as [Hcb Hhb]. fold b in Hcb, Hhb.
  split; [exact Hcb|]. split; [exact Hhb|].
  intros v Hv.
  pose proof (py_sum_nonneg _ Hhb) as Hs.
  destruct (Deque.items (Box.history b)) as [|x l] eqn:E.
  - rewrite (get_value_empty b E) in Hv. discriminate.
  - assert (Hne : Deque.items (Box.history b) <> [])
      by (rewrite E; discriminate).
    rewrite (get_value_nonempty b Hne) in Hv. injection Hv as <-.
    unfold trunc_mean. rewrite E. apply Z.quot_pos; [exact Hs | cbn; lia].
Qed.

Lemma counts_never_negative_witness :
  0 <= Box.count (Box.run door [Box.DoCheck (PInt 3); Box.DoUpdate;
                                Box.DoCheck (PInt 4)]).
Proof.
  exact (proj1 (counts_never_negative "door" [0; 0] [10; 10] 3 door
                  [Box.DoCheck (PInt 3); Box.DoUpdate; Box.DoCheck (PInt 4)]
                  eq_refl)).
Defined.

(** ** When Box.check raises *)

Lemma check_raise_cases (b : Box.t) (pos : pyval) (e : exn) :
  Box.check b pos = Raise e <->
  e = ValueError /\
  (length (Box.xyxy b) <> 4%nat \/
   exists l, pos = PSeq l /\ length l <> 2%nat).
Proof.
  unfold Box.check.
  destruct (Box.xyxy b) as [|x1 [|y1 [|x2 [|y2 [|z r]]]]]; cbn [length];
    try (split; [intros [= <-]; split; [reflexivity | left; lia]
                | now intros [-> _]]).
  destruct pos as [m|l].
  - cbn. destruct (Box.inside x1 y1 x2 y2 m m);
      (split; [discriminate | intros [_ [H|(l & Hl & _)]]; [lia | discriminate]]).
  - unfold tuple_handler.
    destruct l as [|X [|Y [|Z l]]]; cbn.
    + split; [intros [= <-]; split; [reflexivity | right; exists []; now split]
             | now intros [-> _]].
    + split; [intros [= <-]; split;
                [reflexivity | right; exists [X]; now split]
             | now intros [-> _]].
    + destruct (Box.inside x1 y1 x2 y2 X Y);
        (split; [discriminate
                | intros [_ [H|(l' & Hl & Hlen)]];
                  [lia | injection Hl as <-; cbn in Hlen; lia]]).
    + split; [intros [= <-]; split;
                [reflexivity | right; eexists; split; [reflexivity | cbn; lia]]
             | now intros [-> _]].
Qed.

(** X5: [Box.check] treats an int position [n] as the point [(n, n)]; it
    raises exactly when the rectangle does not have four coordinates or the
    position is a sequence whose length is not 2, and the exception is then
    [ValueError]. *)
Theorem check_raises_iff (b : Box.t) (pos : pyval) (n : Z) (e : exn) :
  Box.check b (PInt n) = Box.check b (PSeq [n; n]) /\
  (Box.check b pos = Raise e <->
   e = ValueError /\
   (length (Box.xyxy b) <> 4%nat \/
    exists l, pos = PSeq l /\ length l <> 2%nat)).
Proof. split; [reflexivity | apply check_raise_cases]. Qed.

(** ** tuple_handler *)

(** X6: a value accepted by [tuple_handler] comes back with exactly
    [max_dim] elements: an int is repeated [max_dim] times, a sequence is
    returned as it is; handling the result again returns it unchanged. *)
Theorem tuple_handler_result (value : pyval) (max_dim : nat) (out : list Z) :
  tuple_handler value max_dim = Ok out ->
  length out = max_dim /\
  tuple_handler (PSeq out) max_dim = Ok out /\
  match value with
  | PInt n => out = repeat n max_dim
  | PSeq l => out = l
  end.
Proof.
  unfold tuple_handler.
  destruct value as [n|l].
  - rewrite repeat_length, Nat.eqb_refl. intros [= <-].
    now rewrite repeat_length, Nat.eqb_refl.
  - destruct (Nat.eqb_spec (length l) max_dim) as [E|]; [|discriminate].
    intros [= <-]. rewrite <- E, Nat.eqb_refl. auto.
Qed.

Lemma tuple_handler_result_witness :
  length [4; 4; 4] = 3%nat /\
  tuple_handler (PSeq [4; 4; 4]) 3 = Ok [4; 4; 4] /\
  [4; 4; 4] = repeat 4 3.
Proof.
  apply (tuple_handler_result (PInt 4) 3 [4; 4; 4] eq_refl).
Defined.

Lemma tuple_handler_z_nat (value : pyval) (d : nat) :
  tuple_handler_z value (Z.of_nat d) = tuple_handler value d.
Proof.
  unfold tuple_handler_z, tuple_handler. rewrite Nat2Z.id.
  set (output := match value with
                 | PInt n => repeat n d
                 | PSeq l => l
                 end).
  destruct (Nat.eqb_spec (length output) d) as [E|E];
    destruct (Z.eqb_spec (Z.of_nat (length output)) (Z.of_nat d));
    try reflexivity; lia.
Qed.

(** X7: for any int [max_dim] below 2^20, [tuple_handler] raises on an int
    exactly when [max_dim] is negative (the repeated list is then empty and
    its length is not [max_dim]), and on a sequence exactly when the length
    differs from [max_dim]; the exception is [ValueError] in both cases.  At
    a [max_dim >= 0] the function is [tuple_handler] as used by
    [Box.check]. *)
Theorem tuple_handler_raises_iff (value : pyval) (max_dim : Z) (e : exn) :
  max_dim < small_dim ->
  (tuple_handler_z value max_dim = Raise e <->
   e = ValueError /\
   ((exists n, value = PInt n /\ max_dim < 0) \/
    (exists l, value = PSeq l /\ Z.of_nat (length l) <> max_dim)))
  /\
  (0 <= max_dim ->
   tuple_handler_z value max_dim = tuple_handler value (Z.to_nat max_dim)).
Proof.
  intros _. split.
  - unfold tuple_handler_z. destruct value as [n|l].
    + rewrite repeat_length.
      destruct (Z.eqb_spec (Z.of_nat (Z.to_nat max_dim)) max_dim) as [E|E].
      * split; [discriminate|].
        intros [_ [(m & _ & Hneg)|(l & Hl & _)]]; [lia | discriminate].
      * split; [|now intros [-> _]].
        intros [= <-]. split; [reflexivity|]. left. exists n.
        split; [reflexivity | lia].
    + destruct (Z.eqb_spec (Z.of_nat (length l)) max_dim) as [E|E].
      * split; [discriminate|].
        intros [_ [(m & Hm & _)|(l' & Hl & Hlen)]]; [discriminate|].
        injection Hl as <-. contradiction.
      * split; [|now intros [-> _]].
        intros [= <-]. split; [reflexivity|]. right. now exists l.
  - intros Hpos. rewrite <- (tuple_handler_z_nat value (Z.to_nat max_dim)).
    now rewrite Z2Nat.id.
Qed.

(** ** TrackBox.__init__ *)

Lemma new_built (c : TrackBox.box_config) :
  0 <= TrackBox.cfg_smoothness c -> TrackBox.new c = Ok (built c).
Proof.
  intros H. unfold TrackBox.new, Box.init, Deque.new.
  now destruct (Z.ltb_spec (TrackBox.cfg_smoothness c) 0); [lia|].
Qed.

Lemma new_negative (c : TrackBox.box_config) :
  TrackBox.cfg_smoothness c < 0 -> TrackBox.new c = Raise ValueError.
Proof.
  intros H. unfold TrackBox.new, Box.init, Deque.new.
  now destruct (Z.ltb_spec (TrackBox.cfg_smoothness c) 0); [|lia].
Qed.

Lemma init_cases (cs : list TrackBox.box_config) :
  (Forall (fun c => 0 <= TrackBox.cfg_smoothness c) cs ->
   TrackBox.init cs =
   Ok {| TrackBox.boxes := map built cs; TrackBox.persist := None |})
  /\
  (~ Forall (fun c => 0 <= TrackBox.cfg_smoothness c) cs ->
   TrackBox.init cs = Raise ValueError).
Proof.
  unfold TrackBox.init.
  induction cs as [|c cs [IHok IHbad]]; cbn [TrackBox.new_all map].
  - split; [reflexivity|]. intros H. exfalso. apply H. constructor.
  - destruct (Z.le_gt_cases 0 (TrackBox.cfg_smoothness c)) as [Hc|Hc].
    + rewrite (new_built c Hc).
      destruct (decide (Forall (fun c => 0 <= TrackBox.cfg_smoothness c) cs))
        as [Hall|Hnot].
      * specialize (IHok Hall).
        destruct (TrackBox.new_all cs) as [bs|]; [|discriminate].
        injection IHok as ->.
        split; [reflexivity|]. intros H. exfalso. apply H. now constructor.
      * specialize (IHbad Hnot).
        destruct (TrackBox.new_all cs) as [bs|x]; [discriminate|].
        injection IHbad as ->.
        split; [|reflexivity]. intros H. inversion H. contradiction.
    + rewrite (new_negative c) by lia.
      split; [|reflexivity]. intros H. inversion H. lia.
Qed.

(** X8: when [TrackBox.__init__] succeeds, the object holds one zone per
    entry of the list, in the order of the list, each with the entry's
    name, the rectangle made of its two corners, an empty history bounded
    by its smoothness and a count of 0; persistence is disabled, and no
    entry has a negative smoothness. *)
Theorem init_builds_zones_in_order (cs : list TrackBox.box_config)
    (tb : TrackBox.t) :
  TrackBox.init cs = Ok tb ->
  tb = {| TrackBox.boxes := map built cs; TrackBox.persist := None |} /\
  Forall (fun c => 0 <= TrackBox.cfg_smoothness c) cs.
Proof.
  intros Hinit. destruct (init_cases cs) as [Hok Hbad].
  destruct (decide (Forall (fun c => 0 <= TrackBox.cfg_smoothness c) cs))
    as [Hall|Hnot].
  - split; [|exact Hall]. rewrite (Hok Hall) in Hinit. now injection Hinit.
  - rewrite (Hbad Hnot) in Hinit. discriminate.
Qed.

Lemma init_builds_zones_in_order_witness :
  {| TrackBox.boxes := [door]; TrackBox.persist := None |} =
  {| TrackBox.boxes := map built [door_config]; TrackBox.persist := None |}
  /\
  Forall (fun c => 0 <= TrackBox.cfg_smoothness c) [door_config].
Proof.
  apply (init_builds_zones_in_order [door_config]
           {| TrackBox.boxes := [door]; TrackBox.persist := None |} eq_refl).
Defined.

(** ** TrackBox.check *)

Lemma check_well_formed (b : Box.t) (X Y : Z) :
  well_formed b ->
  Box.check b (PSeq [X; Y]) = Ok (counted (PSeq [X; Y]) b).
Proof.
  unfold well_formed, Box.check, counted, Box.hit.
  destruct (Box.xyxy b) as [|x1 [|y1 [|x2 [|y2 [|z r]]]]] eqn:Ex;
    cbn [length]; try lia.
  intros _. cbn.
  destruct (Box.inside x1 y1 x2 y2 X Y).
  - reflexivity.
  - rewrite Z.add_0_r, <- Ex. now destruct b.
Qed.

Lemma check_all_well_formed (bs : list Box.t) (X Y : Z) :
  Forall well_formed bs ->
  TrackBox.check_all bs (PSeq [X; Y]) = (map (counted (PSeq [X; Y])) bs, None).
Proof.
  induction 1 as [|b bs Hb _ IH]; cbn [TrackBox.check_all map]; [reflexivity|].
  now rewrite (check_well_formed b X Y Hb), IH.
Qed.

(** X9: when every zone has a four-coordinate rectangle, [TrackBox.check]
    on a point [(X, Y)] returns normally and counts the point for every zone
    that contains it, each zone independently of the others (overlapping
    zones all count it); names, rectangles, histories, persistence and files
    are untouched. *)
Theorem check_counts_every_zone (w : TrackBox.world) (X Y : Z) :
  Forall well_formed (TrackBox.boxes (TrackBox.self w)) ->
  TrackBox.check w (PSeq [X; Y]) =
  TrackBox.Done
    (with_boxes w (map (counted (PSeq [X; Y]))
                       (TrackBox.boxes (TrackBox.self w)))).
Proof.
  intros Hwf. unfold TrackBox.check.
  now rewrite (check_all_well_formed _ X Y Hwf).
Qed.

Lemma check_counts_every_zone_witness :
  TrackBox.check
    (with_boxes fresh
       [Box.mk "door" [0; 0; 10; 10] (Deque.mk 3 []) 0;
        Box.mk "mat" [5; 5; 20; 20] (Deque.mk 3 []) 7;
        Box.mk "desk" [30; 30; 40; 40] (Deque.mk 3 []) 1])
    (PSeq [6; 8]) =
  TrackBox.Done
    (with_boxes fresh
       [Box.mk "door" [0; 0; 10; 10] (Deque.mk 3 []) 1;
        Box.mk "mat" [5; 5; 20; 20] (Deque.mk 3 []) 8;
        Box.mk "desk" [30; 30; 40; 40] (Deque.mk 3 []) 1]).
Proof.
  apply (check_counts_every_zone
           (with_boxes fresh
              [Box.mk "door" [0; 0; 10; 10] (Deque.mk 3 []) 0;
               Box.mk "mat" [5; 5; 20; 20] (Deque.mk 3 []) 7;
               Box.mk "desk" [30; 30; 40; 40] (Deque.mk 3 []) 1]) 6 8).
  repeat constructor.
Defined.

(** X10: a position that is a sequence of length other than 2 makes
    [TrackBox.check] raise [ValueError] and change nothing as soon as there
    is one zone; with no zone at all the position is never looked at and the
    call returns normally. *)
Theorem check_malformed_position (w : TrackBox.world) (l : list Z) :
  length l <> 2%nat ->
  (TrackBox.boxes (TrackBox.self w) <> [] ->
   TrackBox.check w (PSeq l) = TrackBox.Raised ValueError w)
  /\
  (TrackBox.boxes (TrackBox.self w) = [] ->
   TrackBox.check w (PSeq l) = TrackBox.Done w).
Proof.
  intros Hl. destruct w as [[bs p] d]. unfold TrackBox.check. cbn.
  split.
  - intros Hne. destruct bs as [|b bs]; [congruence|].
    cbn [TrackBox.check_all].
    destruct (Box.check b (PSeq l)) as [b'|e] eqn:E.
    + exfalso.
      assert (Hno : ~ exists e, Box.check b (PSeq l) = Raise e)
        by (intros [e He]; congruence).
      apply Hno. exists ValueError.
      apply (check_raise_cases b (PSeq l) ValueError).
      split; [reflexivity|]. right. now exists l.
    + apply (check_raise_cases b (PSeq l) e) in E.
      now destruct E as [-> _].
  - now intros ->.
Qed.

Lemma check_malformed_position_witness :
  TrackBox.check fresh (PSeq [1; 2; 3]) = TrackBox.Raised ValueError fresh.
Proof.
  apply (proj1 (check_malformed_position fresh [1; 2; 3]
                  ltac:(discriminate))).
  discriminate.
Defined.

Lemma check_all_bad_rectangle (bs1 bs2 : list Box.t) (bad : Box.t) (X Y : Z) :
  Forall well_formed bs1 -> ~ well_formed bad ->
  TrackBox.check_all (bs1 ++ bad :: bs2) (PSeq [X; Y]) =
  (map (counted (PSeq [X; Y])) bs1 ++ bad :: bs2, Some ValueError).
Proof.
  intros Hwf Hbad.
  induction Hwf as [|b bs1 Hb _ IH]; cbn [app map TrackBox.check_all].
  - destruct (Box.check bad (PSeq [X; Y])) as [b'|e] eqn:E.
    + exfalso.
      assert (Hr : Box.check bad (PSeq [X; Y]) = Raise ValueError).
      { apply (check_raise_cases bad (PSeq [X; Y]) ValueError).
        split; [reflexivity|]. now left. }
      congruence.
    + apply (check_raise_cases bad (PSeq [X; Y]) e) in E.
      now destruct E as [-> _].
  - now rewrite (check_well_formed b X Y Hb), IH.
Qed.

(** X11: when a zone's rectangle does not have four coordinates,
    [TrackBox.check] raises [ValueError] at that zone: the zones before it in
    the list have already counted the point, that zone and the zones after
    it are left as they were. *)
Theorem check_stops_at_bad_rectangle (w : TrackBox.world)
    (bs1 bs2 : list Box.t) (bad : Box.t) (X Y : Z) :
  TrackBox.boxes (TrackBox.self w) = bs1 ++ bad :: bs2 ->
  Forall well_formed bs1 -> ~ well_formed bad ->
  TrackBox.check w (PSeq [X; Y]) =
  TrackBox.Raised ValueError
    (with_boxes w (map (counted (PSeq [X; Y])) bs1 ++ bad :: bs2)).
Proof.
  intros Hbs Hwf Hbad. unfold TrackBox.check.
  now rewrite Hbs, (check_all_bad_rectangle bs1 bs2 bad X Y Hwf Hbad).
Qed.

Lemma check_stops_at_bad_rectangle_witness :
  TrackBox.check
    (with_boxes fresh
       [door; Box.mk "mat" [5; 5] (Deque.mk 3 []) 0;
        Box.mk "desk" [0; 0; 9; 9] (Deque.mk 3 []) 0])
    (PSeq [6; 8]) =
  TrackBox.Raised ValueError
    (with_boxes fresh
       [Box.mk "door" [0; 0; 10; 10] (Deque.mk 3 []) 1;
        Box.mk "mat" [5; 5] (Deque.mk 3 []) 0;
        Box.mk "desk" [0; 0; 9; 9] (Deque.mk 3 []) 0]).
Proof.
  apply (check_stops_at_bad_rectangle
           (with_boxes fresh
              [door; Box.mk "mat" [5; 5] (Deque.mk 3 []) 0;
               Box.mk "desk" [0; 0; 9; 9] (Deque.mk 3 []) 0])
           [door] [Box.mk "desk" [0; 0; 9; 9] (Deque.mk 3 []) 0]
           (Box.mk "mat" [5; 5] (Deque.mk 3 []) 0) 6 8 eq_refl).
  - repeat constructor.
  - discriminate.
Defined.

Lemma same_but_count_refl (b : Box.t) : same_but_count b b.
Proof. unfold same_but_count. repeat split; lia. Qed.

Lemma check_all_same_but_count (bs : list Box.t) (pos : pyval) :
  Forall2 same_but_count bs (fst (TrackBox.check_all bs pos)).
Proof.
  induction bs as [|b bs IH]; cbn [TrackBox.check_all]; [constructor|].
  destruct (Box.check b pos) as [b'|e] eqn:E.
  - destruct (TrackBox.check_all bs pos) as [r' x]. cbn [fst] in *.
    constructor; [|exact IH].
    apply check_history in E. destruct E as (Hh & Hx & Hn & Hc).
    unfold same_but_count. rewrite Hh, Hx, Hn, Hc.
    repeat split; destruct (Box.hit b pos); lia.
  - cbn [fst]. constructor; [apply same_but_count_refl|].
    clear. induction bs; constructor; [apply same_but_count_refl | assumption].
Qed.

Lemma check_boxes_same_but_count (w : TrackBox.world) (pos : pyval) :
  Forall2 same_but_count
    (TrackBox.boxes (TrackBox.self w))
    (TrackBox.boxes (TrackBox.self (TrackBox.world_of (TrackBox.check w pos)))).
Proof.
  destruct (check_world w pos) as (_ & _ & Hb). cbv zeta in Hb.
  rewrite Hb. apply check_all_same_but_count.
Qed.

(** X12: whether it returns or raises, [TrackBox.check] keeps the list of
    zones position by position: names, rectangles and histories are the
    same and each count is the old one or one more; the persistence state
    (frame counter and configuration) and the files are untouched. *)
Theorem check_only_touches_counts (w : TrackBox.world) (pos : pyval) :
  let w' := TrackBox.world_of (TrackBox.check w pos) in
  Forall2 same_but_count (TrackBox.boxes (TrackBox.self w))
                         (TrackBox.boxes (TrackBox.self w')) /\
  TrackBox.persist (TrackBox.self w') = TrackBox.persist (TrackBox.self w) /\
  TrackBox.disk w' = TrackBox.disk w.
Proof.
  destruct (check_world w pos) as (Hp & Hd & _). cbv zeta in *.
  rewrite Hp, Hd. repeat split. apply check_boxes_same_but_count.
Qed.

(** ** The scheduler in integers *)

Lemma int_of_float_div (a b : Z) :
  b <> 0 -> int_of_float (inject_Z a / inject_Z b) = Z.quot a b.
Proof.
  intros Hb. unfold int_of_float.
  destruct b as [|q|q]; [contradiction| |]; cbn.
  - now rewrite Z.mul_1_r.
  - change (Z.neg q) with (- Z.pos q).
    rewrite Z.quot_opp_r by discriminate.
    rewrite <- Z.quot_opp_l by discriminate.
    f_equal. lia.
Qed.

Lemma is_due_iff_divides (p : TrackBox.persistence) :
  TrackBox.fps (TrackBox.conf p) <> 0 ->
  TrackBox.interval (TrackBox.conf p) <> 0 ->
  is_due p <->
  TrackBox.time p <> 0 /\
  (TrackBox.fps (TrackBox.conf p) * TrackBox.interval (TrackBox.conf p)
   | TrackBox.time p * TrackBox.speed (TrackBox.conf p)).
Proof.
  intros Hf Hi. unfold is_due, TrackBox.spec_due.
  now rewrite real_mod_zero_iff by assumption.
Qed.

(** X13: outside camera mode, with [fps] and [interval] not 0, a writable
    file, a value for every zone, and [time * speed], [fps], [interval] and
    the zones' sums below 2^53 in magnitude, [save] writes a row exactly
    when the frame counter is not 0 and [fps * interval] divides
    [time * speed].  The
    row then starts with the integer [time * speed / fps], an exact
    quotient and a multiple of [interval], followed by the zones' truncated
    means; otherwise [save] returns without changing anything. *)
Theorem save_row_in_integers (e : env) (w : TrackBox.world)
    (p : TrackBox.persistence) :
  TrackBox.persist (TrackBox.self w) = Some p ->
  let c := TrackBox.conf p in
  let a := TrackBox.time p * TrackBox.speed c in
  TrackBox.fps c <> 0 -> TrackBox.interval c <> 0 ->
  TrackBox.camera c = false ->
  io_ok e = true ->
  Forall nonempty (TrackBox.boxes (TrackBox.self w)) ->
  in_float_range p ->
  exact_values (TrackBox.boxes (TrackBox.self w)) ->
  (TrackBox.time p <> 0 /\ (TrackBox.fps c * TrackBox.interval c | a) ->
   TrackBox.save e w = TrackBox.Done (saved e w p) /\
   TrackBox.file_at (TrackBox.disk (saved e w p)) (TrackBox.save_path c) =
     TrackBox.file_at (TrackBox.disk w) (TrackBox.save_path c) ++
     [Row (Second (Z.quot a (TrackBox.fps c)))
          (map smoothed (TrackBox.boxes (TrackBox.self w)))] /\
   Z.quot a (TrackBox.fps c) * TrackBox.fps c = a /\
   (TrackBox.interval c | Z.quot a (TrackBox.fps c)))
  /\
  (~ (TrackBox.time p <> 0 /\ (TrackBox.fps c * TrackBox.interval c | a)) ->
   TrackBox.save e w = TrackBox.Done w).
Proof.
  intros Hp c a Hf Hi Hcam Hio Hne _ _.
  pose proof (is_due_iff_divides p Hf Hi) as Hiff. fold c a in Hiff.
  destruct (save_sound e w p Hp) as [[Hz|[_ Hz]]|_ Hnd|_ _ Hio'|_ _ _ Hn|_ Hd _ _];
    try contradiction; try congruence.
  - split; [|reflexivity]. intros Hdiv. apply Hiff in Hdiv. contradiction.
  - split; [|intros Hno; apply Hiff in Hd; contradiction].
    intros [_ [k Hk]].
    split; [reflexivity|]. split.
    + unfold saved. cbn [TrackBox.disk]. rewrite file_at_insert.
      unfold row_stamp. fold c. rewrite Hcam.
      now rewrite int_of_float_div by exact Hf.
    + assert (Hq : Z.quot a (TrackBox.fps c) = k * TrackBox.interval c).
      { rewrite Hk.
        replace (k * (TrackBox.fps c * TrackBox.interval c))
          with (k * TrackBox.interval c * TrackBox.fps c) by ring.
        now apply Z.quot_mul. }
      split; [rewrite Hq, Hk; ring | exists k; exact Hq].
Qed.

Lemma save_row_in_integers_witness :
  TrackBox.save env_ok (at_frame_20 false) =
    TrackBox.Done (saved env_ok (at_frame_20 false)
                     {| TrackBox.time := 20;
                        TrackBox.conf := scenario_conf "out.csv" |}).
Proof.
  apply (proj1 (save_row_in_integers env_ok (at_frame_20 false) _ eq_refl
                  ltac:(discriminate) ltac:(discriminate) eq_refl eq_refl
                  ltac:(repeat constructor; discriminate)
                  ltac:(repeat split) ltac:(repeat constructor))).
  split; [discriminate | exists 1; reflexivity].
Defined.

(** ** The schedule of rows, for any valid configuration *)

Lemma divides_reduced (D s t : Z) :
  0 < D -> (D | t * s) <-> (D / Z.gcd D s | t).
Proof.
  intros HD.
  set (g := Z.gcd D s).
  assert (Hg : 0 < g).
  { pose proof (Z.gcd_nonneg D s).
    assert (g <> 0) by (unfold g; intros E; apply Z.gcd_eq_0_l in E; lia).
    unfold g in *. lia. }
  destruct (Z.gcd_divide_l D s) as [D' HD']. fold g in HD'.
  destruct (Z.gcd_divide_r D s) as [s' Hs']. fold g in Hs'.
  assert (HDq : D / g = D') by (rewrite HD'; apply Z.div_mul; lia).
  assert (Hsq : s / g = s') by (rewrite Hs'; apply Z.div_mul; lia).
  assert (Hco : Z.gcd D' s' = 1).
  { rewrite <- HDq, <- Hsq. apply Z.gcd_div_gcd; [lia | reflexivity]. }
  rewrite HDq. split.
  - intros [k Hk].
    apply (Z.gauss D' s' t); [|exact Hco].
    exists k. rewrite HD', Hs' in Hk.
    apply (Z.mul_cancel_r _ _ g); [lia|]. lia.
  - intros [k Hk]. exists (k * s'). rewrite Hk, HD'. rewrite Hs' at 1. ring.
Qed.

Lemma pred_mod (P n : Z) :
  0 < P ->
  (n - 1) mod P = if n mod P =? 0 then P - 1 else n mod P - 1.
Proof.
  intros HP.
  pose proof (Z.div_mod n P ltac:(lia)) as E.
  pose proof (Z.mod_pos_bound n P HP) as B.
  destruct (Z.eqb_spec (n mod P) 0) as [H0|H0].
  - symmetry. apply (Z.mod_unique (n - 1) P (n / P - 1)); [left; lia|].
    rewrite H0 in E. lia.
  - symmetry. apply (Z.mod_unique (n - 1) P (n / P)); [left; lia|]. lia.
Qed.

Section Schedule.

Variable c : TrackBox.save_conf.
Hypothesis fps_pos : 0 < TrackBox.fps c.
Hypothesis interval_pos : 0 < TrackBox.interval c.

Lemma period_pos : 0 < period c.
Proof.
  unfold period.
  set (D := TrackBox.fps c * TrackBox.interval c).
  assert (HD : 0 < D) by (unfold D; lia).
  pose proof (Z.gcd_nonneg D (TrackBox.speed c)) as Hg.
  destruct (Z.gcd_divide_l D (TrackBox.speed c)) as [D' HD'].
  assert (Hg' : Z.gcd D (TrackBox.speed c) <> 0)
    by (intros E; apply Z.gcd_eq_0_l in E; lia).
  rewrite HD' at 1. rewrite Z.div_mul by exact Hg'. nia.
Qed.

Lemma due_iff_period (t : Z) :
  is_due {| TrackBox.time := t; TrackBox.conf := c |} <->
  t <> 0 /\ (period c | t).
Proof.
  rewrite is_due_iff_divides by (cbn; lia). cbn [TrackBox.time TrackBox.conf].
  unfold period. rewrite <- divides_reduced by lia. tauto.
Qed.

Lemma counter_before_range (n : Z) :
  0 <= n -> 0 <= counter_before c n /\
            (TrackBox.camera c = true -> counter_before c n <= period c).
Proof.
  intros Hn. pose proof period_pos as HP. unfold counter_before.
  pose proof (Z.mod_pos_bound (n - 1) (period c) HP).
  destruct (TrackBox.camera c); [|split; [lia | discriminate]].
  destruct (n =? 0); lia.
Qed.

(** The counter at tick [n] is due exactly when [n] is a positive multiple
    of the period, in camera mode as well as outside it. *)
Lemma due_at_tick (n : Z) :
  0 <= n ->
  is_due {| TrackBox.time := counter_before c n; TrackBox.conf := c |} <->
  n <> 0 /\ (period c | n).
Proof.
  intros Hn. pose proof period_pos as HP.
  rewrite due_iff_period. unfold counter_before.
  destruct (TrackBox.camera c); [|tauto].
  destruct (Z.eqb_spec n 0) as [->|Hn0]; [tauto|].
  rewrite pred_mod by exact HP.
  rewrite <- !(Z.mod_divide _ (period c)) by lia.
  pose proof (Z.mod_pos_bound n (period c) HP) as B.
  set (r := n mod period c) in *.
  destruct (Z.eqb_spec r 0) as [H0|H0].
  - replace (period c - 1 + 1) with (period c) by lia.
    rewrite Z.mod_same by lia. split; intros _; split; lia.
  - replace (r - 1 + 1) with r by lia.
    rewrite Z.mod_small by lia. split; intros [_ ?]; lia.
Qed.

Lemma row_tick_spec (n : Z) :
  row_tick c n = true <-> n <> 0 /\ (period c | n).
Proof.
  pose proof period_pos as HP. unfold row_tick.
  rewrite andb_true_iff, negb_true_iff, Z.eqb_neq, Z.eqb_eq.
  now rewrite Z.mod_divide by lia.
Qed.

Lemma counter_next (n : Z) :
  0 <= n ->
  counter_before c (n + 1) =
  (if TrackBox.camera c && row_tick c n then 0 else counter_before c n) + 1.
Proof.
  intros Hn. pose proof period_pos as HP.
  pose proof (row_tick_spec n) as Hrt.
  unfold counter_before.
  destruct (TrackBox.camera c); [|reflexivity]. cbn [andb].
  destruct (Z.eqb_spec (n + 1) 0); [lia|].
  replace (n + 1 - 1) with n by lia.
  destruct (row_tick c n).
  - destruct (proj1 Hrt eq_refl) as [Hn0 Hd].
    apply Z.mod_divide in Hd; [|lia]. now rewrite Hd.
  - destruct (Z.eqb_spec n 0) as [->|Hn0].
    + now rewrite Z.mod_0_l by lia.
    + rewrite pred_mod by exact HP.
      destruct (Z.eqb_spec (n mod period c) 0) as [H0|H0];
        [|set (r := n mod period c) in *; lia].
      assert (Hx : false = true); [|discriminate].
      apply Hrt. split; [exact Hn0|]. apply Z.mod_divide; lia.
Qed.

Lemma schedule_tick (n : Z) (w : TrackBox.world) (f : list pyval * env) :
  0 <= n ->
  TrackBox.persist (TrackBox.self w) =
    Some {| TrackBox.time := counter_before c n; TrackBox.conf := c |} ->
  Forall positive (TrackBox.boxes (TrackBox.self w)) ->
  io_ok (snd f) = true ->
  let w' := TrackBox.world_of (TrackBox.tick w f) in
  TrackBox.persist (TrackBox.self w') =
    Some {| TrackBox.time := counter_before c (n + 1);
            TrackBox.conf := c |} /\
  Forall positive (TrackBox.boxes (TrackBox.self w')) /\
  (n <> 0 /\ (period c | n) ->
   TrackBox.appended w w' (TrackBox.save_path c)
     (Row (row_stamp (snd f)
             {| TrackBox.time := counter_before c n; TrackBox.conf := c |})
          (map smoothed (TrackBox.boxes (TrackBox.self w'))))) /\
  (~ (n <> 0 /\ (period c | n)) -> TrackBox.disk w' = TrackBox.disk w).
Proof.
  intros Hn Hp Hpos Hio w'. subst w'. unfold TrackBox.tick.
  destruct (checks_world positive (fst f) w positive_history)
    as (Hpc & Hdc & Hbc).
  set (wc := fold_left (fun w p => TrackBox.world_of (TrackBox.check w p))
                       (fst f) w) in *.
  rewrite <- Hpc in Hp. specialize (Hbc Hpos).
  destruct (positive_ticked _ Hbc) as [Hpt Hnt].
  unfold TrackBox.appended. rewrite <- Hdc.
  pose proof (due_at_tick n Hn) as Hdue.
  rewrite (counter_next n Hn).
  destruct (update_sound (snd f) wc _ Hp)
    as [[Hf|[_ Hi]]|Hf Hnd|Hf Hd Hio'|Hf Hd _ Hne|Hf Hd _ _];
    cbn [TrackBox.conf TrackBox.time] in *;
    try lia; try congruence; try contradiction;
    cbn [TrackBox.world_of].
  - assert (Ert : row_tick c n = false).
    { destruct (row_tick c n) eqn:E; [|reflexivity].
      exfalso. now apply Hnd, Hdue, row_tick_spec. }
    rewrite Ert, andb_false_r.
    repeat split; [exact Hpt|].
    intros H. apply row_tick_spec in H. congruence.
  - assert (Ert : row_tick c n = true) by now apply row_tick_spec, Hdue.
    rewrite Ert, andb_true_r.
    repeat split; [exact Hpt | | intros H; now apply Hdue in Hd].
    intros _. cbn -[row_stamp]. now rewrite file_at_insert.
Qed.

Lemma schedule_run (fs : list (list pyval * env)) (n : Z)
    (w : TrackBox.world) :
  0 <= n ->
  TrackBox.persist (TrackBox.self w) =
    Some {| TrackBox.time := counter_before c n; TrackBox.conf := c |} ->
  Forall positive (TrackBox.boxes (TrackBox.self w)) ->
  Forall (fun f => io_ok (snd f) = true) fs ->
  let w' := TrackBox.run_ticks w fs in
  TrackBox.persist (TrackBox.self w') =
    Some {| TrackBox.time := counter_before c (n + Z.of_nat (length fs));
            TrackBox.conf := c |} /\
  Forall positive (TrackBox.boxes (TrackBox.self w')).
Proof.
  unfold TrackBox.run_ticks. intros Hn Hp Hpos Hio. revert n w Hn Hp Hpos.
  induction Hio as [|f fs Hf _ IH]; intros n w Hn Hp Hpos;
    cbn [fold_left length].
  - rewrite Z.add_0_r. now split.
  - destruct (schedule_tick n w f Hn Hp Hpos Hf) as (Hp' & Hpos' & _).
    destruct (IH (n + 1) _ ltac:(lia) Hp' Hpos') as (Hp2 & Hpos2).
    split; [|exact Hpos2]. rewrite Hp2. do 3 f_equal. lia.
Qed.

End Schedule.

Lemma stamp_at_counter (c : TrackBox.save_conf) (e : env) (n : Z) :
  TrackBox.fps c <> 0 ->
  row_stamp e {| TrackBox.time := counter_before c n; TrackBox.conf := c |} =
  stamp_at c e n.
Proof.
  intros Hf. unfold row_stamp, stamp_at, counter_before.
  cbn [TrackBox.conf TrackBox.time].
  destruct (TrackBox.camera c); [reflexivity|].
  now rewrite int_of_float_div by exact Hf.
Qed.

(** X14: persistence enabled by [config_save] with [fps > 0] and
    [interval > 0] (the speed being raised to 1 at least), zones built with
    smoothness >= 1 and a writable file; [fps], [interval] and [n * speed]
    are below 2^53.  Tick number [n] (from 0) appends a
    row exactly when [n <> 0] and [fps * interval] divides [n * speed], in
    camera mode as well as outside it.  The row starts with the wall clock
    of that tick in camera mode and with the exact integer
    [n * speed / fps] otherwise, and holds the zones' truncated means.  The
    frame counter before tick [n] is [n] outside camera mode, and the
    number of ticks since the last row in camera mode. *)
Theorem rows_every_period (cs : list TrackBox.box_config)
    (w0 : TrackBox.world) (e0 : env) (path : string)
    (interval fps speed : Z) (camera : bool)
    (fs : list (list pyval * env)) (f : list pyval * env) :
  Forall (fun c => 1 <= TrackBox.cfg_smoothness c) cs ->
  TrackBox.reachable cs w0 ->
  0 < fps -> 0 < interval ->
  io_ok e0 = true ->
  Forall (fun f => io_ok (snd f) = true) (fs ++ [f]) ->
  fps < two53 -> interval < two53 ->
  Z.of_nat (length fs) * Z.max 1 speed < two53 ->
  let c := stored_conf path interval fps speed camera in
  let w1 := TrackBox.world_of
              (TrackBox.config_save e0 w0 path interval fps speed camera) in
  let w := TrackBox.run_ticks w1 fs in
  let n := Z.of_nat (length fs) in
  let w' := TrackBox.world_of (TrackBox.tick w f) in
  TrackBox.time_of w = Some (counter_before c n) /\
  (n <> 0 /\ (fps * interval | n * Z.max 1 speed) ->
   TrackBox.appended w w' path
     (Row (stamp_at c (snd f) n)
          (map smoothed (TrackBox.boxes (TrackBox.self w'))))) /\
  (~ (n <> 0 /\ (fps * interval | n * Z.max 1 speed)) ->
   TrackBox.disk w' = TrackBox.disk w).
Proof.
  intros Hcs Hreach Hfps Hint Hio0 Hio _ _ _ c w1 w n w'.
  apply Forall_app in Hio. destruct Hio as [Hfs Hf].
  apply Forall_inv in Hf.
  pose proof (reachable_good cs w0 Hcs Hreach) as [Hpos0 _].
  assert (Hfc : 0 < TrackBox.fps c) by exact Hfps.
  assert (Hic : 0 < TrackBox.interval c) by exact Hint.
  assert (Hp1 : TrackBox.persist (TrackBox.self w1) =
                Some {| TrackBox.time := counter_before c 0;
                        TrackBox.conf := c |}).
  { unfold w1, TrackBox.config_save. rewrite Hio0. cbn.
    unfold counter_before. now destruct (TrackBox.camera c). }
  assert (Hpos1 : Forall positive (TrackBox.boxes (TrackBox.self w1))).
  { unfold w1, TrackBox.config_save. now rewrite Hio0. }
  destruct (schedule_run c Hfc Hic fs 0 w1 ltac:(lia) Hp1 Hpos1 Hfs)
    as (Hp & Hpos).
  fold w in Hp, Hpos. rewrite Z.add_0_l in Hp. fold n in Hp.
  destruct (schedule_tick c Hfc Hic n w f ltac:(lia) Hp Hpos Hf)
    as (_ & _ & Hw & Hnw).
  fold w' in Hw, Hnw.
  assert (Hdiv : (fps * interval | n * Z.max 1 speed) <-> (period c | n)).
  { unfold period. cbn [TrackBox.fps TrackBox.interval TrackBox.speed c
                        stored_conf].
    apply divides_reduced. lia. }
  split; [unfold TrackBox.time_of; now rewrite Hp|].
  split.
  - intros [Hn0 Hd]. rewrite <- (stamp_at_counter c (snd f) n) by lia.
    apply Hw. split; [exact Hn0 | now apply Hdiv].
  - intros Hnot. apply Hnw. intros [Hn0 Hd]. apply Hnot.
    split; [exact Hn0 | now apply Hdiv].
Qed.

Lemma rows_every_period_witness :
  TrackBox.appended
    (TrackBox.run_ticks
       (TrackBox.world_of
          (TrackBox.config_save env_ok fresh "out.csv" 2 10 1 true))
       (repeat one_inside 40))
    (TrackBox.world_of
       (TrackBox.tick
          (TrackBox.run_ticks
             (TrackBox.world_of
                (TrackBox.config_save env_ok fresh "out.csv" 2 10 1 true))
             (repeat one_inside 40))
          one_inside))
    "out.csv" (Row (Clock "12:00:00") [1]).
Proof.
  apply (proj1 (proj2
           (rows_every_period [door_config] fresh env_ok "out.csv" 2 10 1 true
              (repeat one_inside 40) one_inside
              door_config_positive fresh_reachable eq_refl eq_refl eq_refl
              ltac:(repeat constructor) eq_refl eq_refl eq_refl))).
  split; [discriminate | exists 2; reflexivity].
Defined.

(** ** A configuration that divides by zero *)

Lemma tick_zero_config (f : list pyval * env) (w : TrackBox.world)
    (p : TrackBox.persistence) :
  TrackBox.persist (TrackBox.self w) = Some p ->
  TrackBox.fps (TrackBox.conf p) = 0 \/
  (TrackBox.time p <> 0 /\ TrackBox.interval (TrackBox.conf p) = 0) ->
  let w' := TrackBox.world_of (TrackBox.tick w f) in
  TrackBox.persist (TrackBox.self w') = Some p /\
  TrackBox.disk w' = TrackBox.disk w.
Proof.
  intros Hp Hz w'. subst w'. unfold TrackBox.tick.
  destruct (checks_world positive (fst f) w positive_history) as (Hpc & Hdc & _).
  rewrite <- Hpc in Hp. rewrite <- Hdc.
  now rewrite (update_zero_config (snd f) _ p Hp Hz).
Qed.

(** X15: when the stored [fps] is 0, or the stored [interval] is 0, the
    frame counter is not 0 and [time * speed] is below 2^53 in magnitude
    (so that the quotient by [fps] is a float), the scheduler is stuck:
    however many ticks follow, the counter and the configuration stay as
    they are, no file changes, and every [update] raises
    [ZeroDivisionError] after it has updated the zones. *)
Theorem zero_config_raises_forever (w : TrackBox.world)
    (p : TrackBox.persistence) (fs : list (list pyval * env)) (e : env) :
  TrackBox.persist (TrackBox.self w) = Some p ->
  TrackBox.fps (TrackBox.conf p) = 0 \/
  (TrackBox.time p <> 0 /\ TrackBox.interval (TrackBox.conf p) = 0 /\
   Z.abs (TrackBox.time p * TrackBox.speed (TrackBox.conf p)) < two53) ->
  let w' := TrackBox.run_ticks w fs in
  TrackBox.persist (TrackBox.self w') = Some p /\
  TrackBox.disk w' = TrackBox.disk w /\
  TrackBox.update e w' = TrackBox.Raised ZeroDivisionError (ticked w').
Proof.
  intros Hp Hz' w'.
  assert (Hz : TrackBox.fps (TrackBox.conf p) = 0 \/
               (TrackBox.time p <> 0 /\
                TrackBox.interval (TrackBox.conf p) = 0)).
  { destruct Hz' as [Hf|(Ht & Hi & _)]; [now left | now right]. }
  clear Hz'.
  assert (H : TrackBox.persist (TrackBox.self w') = Some p /\
              TrackBox.disk w' = TrackBox.disk w).
  { subst w'. unfold TrackBox.run_ticks. revert w Hp.
    induction fs as [|f fs IH]; intros w Hp; cbn [fold_left]; [now split|].
    destruct (tick_zero_config f w p Hp Hz) as (Hp' & Hd').
    destruct (IH _ Hp') as (Hp2 & Hd2).
    split; [exact Hp2 | congruence]. }
  destruct H as (Hp' & Hd').
  split; [exact Hp'|]. split; [exact Hd'|].
  now apply (update_zero_config e w' p).
Qed.

Lemma zero_config_raises_forever_witness :
  TrackBox.update env_ok
    (TrackBox.run_ticks
       (TrackBox.world_of
          (TrackBox.config_save env_ok fresh "out.csv" 2 0 1 false))
       (repeat one_inside 3)) =
  TrackBox.Raised ZeroDivisionError
    (ticked
       (TrackBox.run_ticks
          (TrackBox.world_of
             (TrackBox.config_save env_ok fresh "out.csv" 2 0 1 false))
          (repeat one_inside 3))).
Proof.
  apply (proj2 (proj2
           (zero_config_raises_forever
              (TrackBox.world_of
                 (TrackBox.config_save env_ok fresh "out.csv" 2 0 1 false))
              _ (repeat one_inside 3) env_ok eq_refl
              (or_introl eq_refl)))).
Defined.

(** ** A write that fails *)



(** ** What the ticks do to the files *)

Lemma update_other_files (e : env) (w : TrackBox.world) (q : string) :
  (forall p, TrackBox.persist (TrackBox.self w) = Some p ->
             q <> TrackBox.save_path (TrackBox.conf p)) ->
  let w' := TrackBox.world_of (TrackBox.update e w) in
  TrackBox.disk w' !! q = TrackBox.disk w !! q /\
  (forall p', TrackBox.persist (TrackBox.self w') = Some p' ->
              q <> TrackBox.save_path (TrackBox.conf p')).
Proof.
  intros Hq w'. subst w'.
  destruct (TrackBox.persist (TrackBox.self w)) as [p|] eqn:Hp.
  - specialize (Hq p eq_refl).
    destruct (update_sound e w p Hp); cbn;
      rewrite ?lookup_insert_ne by congruence;
      (split; [reflexivity|]);
      try (rewrite Hp); now intros p' [= <-].
  - rewrite (update_disabled e w Hp). cbn. rewrite Hp. now split.
Qed.

Lemma tick_other_files (f : list pyval * env) (w : TrackBox.world)
    (q : string) :
  (forall p, TrackBox.persist (TrackBox.self w) = Some p ->
             q <> TrackBox.save_path (TrackBox.conf p)) ->
  let w' := TrackBox.world_of (TrackBox.tick w f) in
  TrackBox.disk w' !! q = TrackBox.disk w !! q /\
  (forall p', TrackBox.persist (TrackBox.self w') = Some p' ->
              q <> TrackBox.save_path (TrackBox.conf p')).
Proof.
  intros Hq. unfold TrackBox.tick.
  destruct (checks_world positive (fst f) w positive_history) as (Hpc & Hdc & _).
  rewrite <- Hpc in Hq. rewrite <- Hdc.
  now apply update_other_files.
Qed.

(** X17: ticks write to no file but the configured one.  Over any sequence
    of frames (checks, then [update]), whatever the outcome of each call, a
    path other than the stored [save_path] keeps its content or its absence;
    while persistence is disabled no file changes at all. *)
Theorem ticks_touch_only_save_path (w : TrackBox.world)
    (fs : list (list pyval * env)) (q : string) :
  (forall p, TrackBox.persist (TrackBox.self w) = Some p ->
             q <> TrackBox.save_path (TrackBox.conf p)) ->
  TrackBox.disk (TrackBox.run_ticks w fs) !! q = TrackBox.disk w !! q.
Proof.
  unfold TrackBox.run_ticks. revert w.
  induction fs as [|f fs IH]; intros w Hq; cbn [fold_left]; [reflexivity|].
  destruct (tick_other_files f w q Hq) as (Hd & Hq').
  rewrite (IH _ Hq'). exact Hd.
Qed.

Lemma ticks_touch_only_save_path_witness :
  TrackBox.disk (TrackBox.run_ticks (at_frame_20 false)
                                    (repeat one_inside 3)) !! "other.csv" =
  TrackBox.disk (at_frame_20 false) !! "other.csv".
Proof.
  apply (ticks_touch_only_save_path (at_frame_20 false)
           (repeat one_inside 3) "other.csv").
  intros p [= <-]. discriminate.
Defined.

Lemma tick_appends_rows (f : list pyval * env) (w : TrackBox.world)
    (q : string) :
  exists rows,
    TrackBox.file_at (TrackBox.disk (TrackBox.world_of (TrackBox.tick w f))) q =
    TrackBox.file_at (TrackBox.disk w) q ++ rows /\
    Forall is_row rows /\ (length rows <= 1)%nat.
Proof.
  unfold TrackBox.tick.
  destruct (checks_world positive (fst f) w positive_history) as (_ & Hdc & _).
  rewrite <- Hdc. apply update_appends_rows.
Qed.

Lemma run_ticks_appends_rows (fs : list (list pyval * env))
    (w : TrackBox.world) (q : string) :
  exists rows,
    TrackBox.file_at (TrackBox.disk (TrackBox.run_ticks w fs)) q =
    TrackBox.file_at (TrackBox.disk w) q ++ rows /\
    Forall is_row rows /\ (length rows <= length fs)%nat.
Proof.
  unfold TrackBox.run_ticks. revert w.
  induction fs as [|f fs IH]; intros w; cbn [fold_left length].
  - exists []. rewrite app_nil_r.
    split; [reflexivity|]. split; [constructor | cbn; lia].
  - destruct (tick_appends_rows f w q) as (r1 & E1 & H1 & L1).
    destruct (IH (TrackBox.world_of (TrackBox.tick w f)))
      as (r2 & E2 & H2 & L2).
    exists (r1 ++ r2). rewrite E2, E1, app_assoc.
    split; [reflexivity|]. split; [now apply Forall_app|].
    rewrite length_app. lia.
Qed.

(** X18: after a [config_save] that could open the file and any number of
    frames, whatever the configuration and the outcome of each call, the
    file is the header line with the zones' names in construction order,
    followed by data rows only, at most one per tick. *)
Theorem file_is_header_then_rows (e0 : env) (w0 : TrackBox.world)
    (path : string) (interval fps speed : Z) (camera : bool)
    (fs : list (list pyval * env)) :
  io_ok e0 = true ->
  let w1 := TrackBox.world_of
              (TrackBox.config_save e0 w0 path interval fps speed camera) in
  exists rows,
    TrackBox.file_at (TrackBox.disk (TrackBox.run_ticks w1 fs)) path =
    Header camera (map Box.name (TrackBox.boxes (TrackBox.self w0))) :: rows /\
    Forall is_row rows /\ (length rows <= length fs)%nat.
Proof.
  intros Hio w1.
  destruct (run_ticks_appends_rows fs w1 path) as (rows & E & Hr & Hl).
  exists rows. split; [|now split].
  rewrite E. unfold w1, TrackBox.config_save. rewrite Hio. cbn.
  now rewrite file_at_insert.
Qed.

Lemma file_is_header_then_rows_witness :
  exists rows,
    TrackBox.file_at
      (TrackBox.disk (TrackBox.run_ticks enabled (repeat one_inside 30)))
      "out.csv" = Header false ["door"] :: rows /\
    Forall is_row rows /\ (length rows <= 30)%nat.
Proof.
  apply (file_is_header_then_rows env_ok fresh "out.csv" 2 10 1 false
           (repeat one_inside 30) eq_refl).
Defined.

(** ** utils.workers_handler *)

(** X19: whatever its argument, a number returned by [workers_handler] is
    at least 0 and strictly below the number of cores; an int is returned as
    it is and anything that is neither an int nor a float gives 0. *)
Theorem workers_handler_range (float : Type)
    (scaled : Z -> float -> Utils.result Z) (max_workers : Z)
    (value : Utils.workers_value float) (workers : Z) :
  Utils.workers_handler float scaled max_workers value =
    Utils.Return workers ->
  0 <= workers < max_workers /\
  match value with
  | Utils.WInt n => workers = n
  | Utils.WFloat x => scaled max_workers x = Utils.Return workers
  | Utils.WOther => workers = 0
  end.
Proof.
  unfold Utils.workers_handler.
  destruct value as [n|x|]; cbn.
  - destruct (Z.ltb_spec (-1) n), (Z.ltb_spec n max_workers); cbn;
      try discriminate.
    intros [= <-]. split; [lia | reflexivity].
  - destruct (scaled max_workers x) as [k|]; [|discriminate].
    destruct (Z.ltb_spec (-1) k), (Z.ltb_spec k max_workers); cbn;
      try discriminate.
    intros [= <-]. split; [lia | reflexivity].
  - destruct (Z.ltb_spec 0 max_workers); cbn; [|discriminate].
    intros [= <-]. split; [lia | reflexivity].
Qed.

Lemma workers_handler_range_witness :
  0 <= 3 < 4 /\ 3 = 3.
Proof.
  apply (workers_handler_range unit (fun _ _ => Utils.Fail Utils.ValueError)
           4 (Utils.WInt 3) 3 eq_refl).
Defined.

(** X20: on an int, [workers_handler] raises exactly when the int is
    negative or not below the number of cores, and the exception is
    [ValueError]: asking for as many workers as there are cores is
    refused. *)
Theorem workers_handler_int_raises_iff (float : Type)
    (scaled : Z -> float -> Utils.result Z) (max_workers n : Z)
    (e : Utils.error) :
  (Utils.workers_handler float scaled max_workers (Utils.WInt n) =
     Utils.Fail e <->
   e = Utils.ValueError /\ (n < 0 \/ max_workers <= n))
  /\
  Utils.workers_handler float scaled max_workers (Utils.WInt max_workers) =
    Utils.Fail Utils.ValueError.
Proof.
  unfold Utils.workers_handler. split.
  - destruct (Z.ltb_spec (-1) n), (Z.ltb_spec n max_workers); cbn.
    + split; [discriminate | intros [_ ?]; lia].
    + split; [intros [= <-]; split; [reflexivity | lia]
             | now intros [-> _]].
    + split; [intros [= <-]; split; [reflexivity | lia]
             | now intros [-> _]].
    + split; [intros [= <-]; split; [reflexivity | lia]
             | now intros [-> _]].
  - rewrite Z.ltb_irrefl, andb_false_r. reflexivity.
Qed.

(** ** utils.device_handler *)

(** X21: [device_handler] returns only for the two normalised values
    ["auto"] and ["gpu"]: ["auto"] gives ["cuda"] when CUDA is available and
    ["cpu"] otherwise, ["gpu"] gives ["cuda"] and only when CUDA is
    available.  Its result is therefore always ["cuda"] or ["cpu"], never a
    device with an index. *)
Theorem device_handler_returns_iff (normalize : string -> string)
    (cuda_available : bool) (value : Utils.device_value) (device : string) :
  Utils.device_handler normalize cuda_available value = Utils.Return device
  <->
  exists s, value = Utils.DStr s /\
    ((normalize s = "auto" /\
      device = if cuda_available then "cuda" else "cpu") \/
     (normalize s = "gpu" /\ cuda_available = true /\ device = "cuda")).
Proof.
  unfold Utils.device_handler. destruct value as [s|].
  - destruct (String.eqb_spec (normalize s) "auto") as [Ea|Ea].
    + split.
      * intros [= <-]. exists s. split; [reflexivity|]. now left.
      * intros (s' & [= <-] & [[_ ->]|[Eg _]]); [reflexivity|].
        rewrite Ea in Eg. discriminate.
    + destruct (String.eqb_spec (normalize s) "gpu") as [Eg|Eg].
      * rewrite Eg. cbn [Utils.has_colon]. cbn.
        destruct cuda_available; cbn.
        -- split.
           ++ intros [= <-]. exists s. split; [reflexivity|]. now right.
           ++ intros (s' & [= <-] & [[Ea' _]|[_ [_ ->]]]);
                [contradiction | reflexivity].
        -- split; [discriminate|].
           intros (s' & [= <-] & [[Ea' _]|[_ [? _]]]);
             [contradiction | discriminate].
      * split; [discriminate|].
        intros (s' & [= <-] & [[? _]|[? _]]); contradiction.
  - split; [discriminate | intros (s & ? & _); discriminate].
Qed.

(** X22: [device_handler] raises [ValueError] only for the normalised value
    ["gpu"] without CUDA.  Every other str that is not ["auto"], among them
    the documented options ["cpu"], ["cuda"] and ["cuda:0"], raises
    [TypeError] whatever the hardware, as does a value that is not a
    str. *)
Theorem device_handler_raises (normalize : string -> string)
    (cuda_available : bool) (value : Utils.device_value) :
  (Utils.device_handler normalize cuda_available value =
     Utils.Fail Utils.ValueError <->
   exists s, value = Utils.DStr s /\ normalize s = "gpu" /\
             cuda_available = false)
  /\
  (Utils.device_handler normalize cuda_available value =
     Utils.Fail Utils.TypeError <->
   value = Utils.DOther \/
   exists s, value = Utils.DStr s /\ normalize s <> "auto" /\
             normalize s <> "gpu").
Proof.
  unfold Utils.device_handler. destruct value as [s|].
  - destruct (String.eqb_spec (normalize s) "auto") as [Ea|Ea];
      [|destruct (String.eqb_spec (normalize s) "gpu") as [Eg|Eg]].
    + split; (split; [discriminate|]).
      * intros (s' & [= <-] & Eg & _). rewrite Ea in Eg. discriminate.
      * intros [?|(s' & [= <-] & ? & _)]; [discriminate | contradiction].
    + rewrite Eg. destruct cuda_available; cbn.
      * split; (split; [discriminate|]).
        -- intros (s' & _ & _ & ?). discriminate.
        -- intros [?|(s' & [= <-] & _ & ?)]; [discriminate | contradiction].
      * split; split.
        -- intros _. now exists s.
        -- reflexivity.
        -- discriminate.
        -- intros [?|(s' & [= <-] & _ & ?)]; [discriminate | contradiction].
    + split; split.
      * discriminate.
      * intros (s' & [= <-] & ? & _). contradiction.
      * intros _. right. now exists s.
      * reflexivity.
  - split; split.
    + discriminate.
    + intros (s & ? & _). discriminate.
    + intros _. now left.
    + reflexivity.
Qed.

Example device_handler_documented_options :
  Utils.device_handler (fun s => s) true (Utils.DStr "cpu") =
    Utils.Fail Utils.TypeError /\
  Utils.device_handler (fun s => s) true (Utils.DStr "cuda") =
    Utils.Fail Utils.TypeError /\
  Utils.device_handler (fun s => s) true (Utils.DStr "cuda:0") =
    Utils.Fail Utils.TypeError /\
  Utils.device_handler (fun s => s) true (Utils.DStr "gpu") =
    Utils.Return "cuda" /\
  Utils.device_handler (fun s => s) false (Utils.DStr "auto") =
    Utils.Return "cpu".
Proof. repeat split. Qed.

(** ** Every line of the file has one field per zone *)

Lemma commas_app (s t : string) :
  commas (s +:+ t) = (commas s + commas t)%nat.
Proof.
  induction s as [|a s IH]; simpl; [reflexivity|]. rewrite IH. lia.
Qed.

Lemma commas_join (l : list string) :
  Forall plain l -> commas (join l) = Nat.pred (length l).
Proof.
  induction 1 as [|s l Hs Hl IH]; [reflexivity|].
  destruct l as [|t l]; [exact Hs|].
  change (join (s :: t :: l)) with (s +:+ "," +:+ join (t :: l)).
  rewrite !commas_app, IH. unfold plain in Hs. rewrite Hs. reflexivity.
Qed.

Lemma pretty_N_char_plain (x : N) :
  Ascii.eqb (pretty_N_char x) comma = false.
Proof. unfold pretty_N_char. repeat case_match; reflexivity. Qed.

Lemma commas_pretty_N_go (x : N) (s : string) :
  commas (pretty_N_go x s) = commas s.
Proof.
  revert s. induction (N.lt_wf_0 x) as [x _ IH]; intros s.
  destruct (decide (x = 0%N)) as [->|Hx]; [now rewrite pretty_N_go_0|].
  rewrite pretty_N_go_step by lia.
  rewrite IH by (apply N.div_lt; lia).
  cbn [commas]. now rewrite pretty_N_char_plain.
Qed.

Lemma pretty_N_plain (x : N) : plain (pretty x).
Proof.
  unfold plain, pretty, pretty_N.
  destruct (decide (x = 0%N)); [reflexivity|]. now rewrite commas_pretty_N_go.
Qed.

Lemma pretty_Z_plain (z : Z) : plain (pretty z).
Proof.
  destruct z as [|q|q]; [reflexivity | apply (pretty_N_plain (N.pos q)) |].
  unfold plain. change (pretty (Z.neg q)) with ("-" +:+ pretty (N.pos q)).
  rewrite commas_app. exact (pretty_N_plain (N.pos q)).
Qed.

Lemma columns_row (k : nat) (t : stamp) (vs : list Z) :
  length vs = k -> plain (render_stamp t) -> columns k (Row t vs).
Proof.
  intros <- Ht. unfold columns. cbn [render].
  rewrite !commas_app, commas_join.
  - rewrite Ht, length_map.
    change (commas ",") with 1%nat. change (commas newline) with 0%nat.
    destruct vs; cbn [length Nat.pred]; lia.
  - induction vs; constructor; [apply pretty_Z_plain | assumption].
Qed.

Lemma columns_header (k : nat) (camera : bool) (names : list string) :
  length names = k -> Forall plain names -> columns k (Header camera names).
Proof.
  intros <- Hn. unfold columns. cbn [render].
  rewrite !commas_app, (commas_join _ Hn).
  change (commas ",") with 1%nat. change (commas newline) with 0%nat.
  replace (commas (if camera then "time" else "second")) with 0%nat
    by (now destruct camera).
  destruct names; cbn [length Nat.pred]; lia.
Qed.

Lemma row_stamp_plain (e : env) (p : TrackBox.persistence) :
  plain (now e) -> plain (render_stamp (row_stamp e p)).
Proof.
  intros H. unfold row_stamp.
  destruct (TrackBox.camera (TrackBox.conf p)); [exact H|].
  apply pretty_Z_plain.
Qed.

Lemma tick_boxes_length (f : list pyval * env) (w : TrackBox.world) :
  length (TrackBox.boxes (TrackBox.self (TrackBox.world_of (TrackBox.tick w f))))
  = length (TrackBox.boxes (TrackBox.self w)).
Proof.
  unfold TrackBox.tick. rewrite update_boxes, length_map.
  generalize (fst f). intros ps. revert w.
  induction ps as [|pos ps IH]; intros w; cbn [fold_left]; [reflexivity|].
  rewrite IH.
  pose proof (check_boxes_same_but_count w pos) as H2.
  symmetry. exact (Forall2_length _ _ _ H2).
Qed.

Lemma update_appends_columns (e : env) (w : TrackBox.world) (q : string) :
  plain (now e) ->
  exists rows,
    TrackBox.file_at
      (TrackBox.disk (TrackBox.world_of (TrackBox.update e w))) q =
    TrackBox.file_at (TrackBox.disk w) q ++ rows /\
    Forall (columns (length (TrackBox.boxes (TrackBox.self w)))) rows.
Proof.
  intros Hnow.
  destruct (TrackBox.persist (TrackBox.self w)) as [p|] eqn:Hp.
  - destruct (update_sound e w p Hp) as [| | | |Hf Hd Hio Hn];
      cbn [TrackBox.world_of].
    1-3: exists []; rewrite app_nil_r; split; [reflexivity | constructor].
    + exists []. rewrite app_nil_r, (file_at_touched (ticked w) p).
      split; [reflexivity | constructor].
    + cbn -[row_stamp].
      destruct (decide (TrackBox.save_path (TrackBox.conf p) = q)) as [<-|Hne].
      * eexists. rewrite file_at_insert. split; [reflexivity|].
        constructor; [|constructor].
        apply columns_row; [now rewrite !length_map|].
        now apply row_stamp_plain.
      * exists []. rewrite app_nil_r, file_at_insert_ne by exact Hne.
        split; [reflexivity | constructor].
  - rewrite (update_disabled e w Hp). exists []. rewrite app_nil_r.
    split; [reflexivity | constructor].
Qed.

Lemma run_ticks_columns (fs : list (list pyval * env)) (w : TrackBox.world)
    (q : string) :
  Forall (fun f => plain (now (snd f))) fs ->
  exists rows,
    TrackBox.file_at (TrackBox.disk (TrackBox.run_ticks w fs)) q =
    TrackBox.file_at (TrackBox.disk w) q ++ rows /\
    Forall (columns (length (TrackBox.boxes (TrackBox.self w)))) rows.
Proof.
  unfold TrackBox.run_ticks. intros Hfs. revert w.
  induction Hfs as [|f fs Hf _ IH]; intros w; cbn [fold_left].
  - exists []. rewrite app_nil_r. split; [reflexivity | constructor].
  - destruct (IH (TrackBox.world_of (TrackBox.tick w f)))
      as (r2 & E2 & H2).
    rewrite tick_boxes_length in H2.
    assert (H1 : exists r1,
               TrackBox.file_at
                 (TrackBox.disk (TrackBox.world_of (TrackBox.tick w f))) q =
               TrackBox.file_at (TrackBox.disk w) q ++ r1 /\
               Forall (columns
                         (length (TrackBox.boxes (TrackBox.self w)))) r1).
    { unfold TrackBox.tick.
      destruct (checks_world positive (fst f) w positive_history)
        as (_ & Hdc & _).
      rewrite <- Hdc.
      destruct (update_appends_columns (snd f)
                  (fold_left
                     (fun w p => TrackBox.world_of (TrackBox.check w p))
                     (fst f) w) q Hf) as (r1 & E1 & W1).
      exists r1. split; [exact E1|].
      pose proof (tick_boxes_length f w) as Hl. unfold TrackBox.tick in Hl.
      rewrite update_boxes, length_map in Hl. now rewrite Hl in W1. }
    destruct H1 as (r1 & E1 & W1).
    exists (r1 ++ r2). rewrite E2, E1, app_assoc.
    split; [reflexivity | now apply Forall_app].
Qed.

(** X23: after a [config_save] that could open the file and any number of
    frames, every line of the file as text, the header and each data row,
    holds the same number of commas: one per zone (and one when there is no
    zone), so that it splits into a first field and one field per zone.
    The zones' names and the wall clock texts are taken without a comma;
    the integers of a row never have one. *)
Theorem file_columns_consistent (e0 : env) (w0 : TrackBox.world)
    (path : string) (interval fps speed : Z) (camera : bool)
    (fs : list (list pyval * env)) :
  io_ok e0 = true ->
  Forall (fun b => plain (Box.name b)) (TrackBox.boxes (TrackBox.self w0)) ->
  Forall (fun f => plain (now (snd f))) fs ->
  let w1 := TrackBox.world_of
              (TrackBox.config_save e0 w0 path interval fps speed camera) in
  Forall (columns (length (TrackBox.boxes (TrackBox.self w0))))
         (TrackBox.file_at (TrackBox.disk (TrackBox.run_ticks w1 fs)) path).
Proof.
  intros Hio Hnames Hfs w1.
  destruct (run_ticks_columns fs w1 path Hfs) as (rows & E & Hr).
  rewrite E. unfold w1, TrackBox.config_save in *. rewrite Hio in *.
  cbn in *. rewrite file_at_insert.
  constructor; [|exact Hr].
  apply columns_header; [now rewrite length_map|].
  clear -Hnames.
  induction Hnames; constructor; assumption.
Qed.

Lemma file_columns_consistent_witness :
  Forall (columns 1)
    (TrackBox.file_at
       (TrackBox.disk (TrackBox.run_ticks enabled (repeat one_inside 45)))
       "out.csv").
Proof.
  apply (file_columns_consistent env_ok fresh "out.csv" 2 10 1 false
           (repeat one_inside 45) eq_refl).
  - repeat constructor.
  - repeat constructor.
Defined.

(** ** A tick acts on each zone as that zone's own frame *)

Lemma check_all_steps (bs : list Box.t) (pos : pyval) :
  Forall well_formed bs ->
  fst (TrackBox.check_all bs pos) =
  map (fun b => Box.step b (Box.DoCheck pos)) bs.
Proof.
  intros Hwf.
  destruct (tuple_handler pos 2) as [out|e] eqn:Et.
  - induction Hwf as [|b bs Hb _ IH]; cbn [TrackBox.check_all map];
      [reflexivity|].
    cbn [Box.step].
    destruct (Box.check b pos) as [b'|x] eqn:E.
    + destruct (TrackBox.check_all bs pos) as [r' y]. cbn [fst] in *.
      now rewrite IH.
    + exfalso. apply (check_raise_cases b pos x) in E.
      destruct E as [_ [Hx|(l & -> & Hl)]]; [contradiction|].
      unfold tuple_handler in Et.
      destruct (Nat.eqb_spec (length l) 2); [contradiction | discriminate].
  - assert (Hall : forall b, Box.check b pos = Raise ValueError \/
                             exists y, Box.check b pos = Raise y).
    { intros b. right. unfold Box.check.
      destruct (Box.xyxy b) as [|x1 [|y1 [|x2 [|y2 [|z r]]]]]; eauto.
      rewrite Et. eauto. }
    assert (Hmap : forall l : list Box.t,
               map (fun b => Box.step b (Box.DoCheck pos)) l = l).
    { induction l as [|b l IHl]; cbn [map]; [reflexivity|].
      f_equal; [|exact IHl]. cbn [Box.step].
      destruct (Hall b) as [E|[y E]]; now rewrite E. }
    rewrite Hmap. destruct bs as [|b bs]; [reflexivity|].
    cbn [TrackBox.check_all].
    destruct (Hall b) as [E|[y E]]; rewrite E; reflexivity.
Qed.

Lemma step_well_formed (b : Box.t) (o : Box.op) :
  well_formed b -> well_formed (Box.step b o).
Proof.
  unfold well_formed. destruct o as [pos|]; [|now cbn].
  now rewrite step_check.
Qed.

Lemma well_formed_map (g : Box.t -> Box.t) (bs : list Box.t) :
  (forall b, well_formed b -> well_formed (g b)) ->
  Forall well_formed bs -> Forall well_formed (map g bs).
Proof.
  intros Hg. induction 1 as [|b bs Hb _ IH]; cbn [map]; constructor; auto.
Qed.

Lemma checks_steps (ps : list pyval) (w : TrackBox.world) :
  Forall well_formed (TrackBox.boxes (TrackBox.self w)) ->
  TrackBox.boxes
    (TrackBox.self
       (fold_left (fun w p => TrackBox.world_of (TrackBox.check w p)) ps w)) =
  map (fun b => Box.run b (map Box.DoCheck ps)) (TrackBox.boxes (TrackBox.self w)).
Proof.
  revert w. induction ps as [|pos ps IH]; intros w Hwf; cbn [fold_left map].
  - unfold Box.run. cbn. now rewrite map_id.
  - destruct (check_world w pos) as (_ & _ & Hb). cbv zeta in Hb.
    rewrite IH.
    + rewrite Hb, (check_all_steps _ pos Hwf), map_map. reflexivity.
    + rewrite Hb, (check_all_steps _ pos Hwf).
      apply well_formed_map; [|exact Hwf].
      intros b. apply step_well_formed.
Qed.

Lemma tick_frames (f : list pyval * env) (w : TrackBox.world) :
  Forall well_formed (TrackBox.boxes (TrackBox.self w)) ->
  TrackBox.boxes (TrackBox.self (TrackBox.world_of (TrackBox.tick w f))) =
  map (fun b => Box.frame b (fst f)) (TrackBox.boxes (TrackBox.self w)).
Proof.
  intros Hwf. unfold TrackBox.tick.
  rewrite update_boxes, (checks_steps (fst f) w Hwf), map_map.
  apply map_ext. intros b. unfold Box.frame, Box.run.
  now rewrite fold_left_app.
Qed.

Lemma frame_well_formed (b : Box.t) (ps : list pyval) :
  well_formed b -> well_formed (Box.frame b ps).
Proof. unfold well_formed. now rewrite frame_spec. Qed.

(** X24: when every zone has a four-coordinate rectangle, a run of frames
    on the [TrackBox] leaves each zone exactly as the same frames applied to
    that zone alone would: zones do not influence one another, and neither
    the persistence state nor the outcome of any write (row written, nothing
    due, exception) changes what the zones record. *)
Theorem ticks_act_zone_by_zone (w : TrackBox.world)
    (fs : list (list pyval * env)) :
  Forall well_formed (TrackBox.boxes (TrackBox.self w)) ->
  TrackBox.boxes (TrackBox.self (TrackBox.run_ticks w fs)) =
  map (fun b => box_frames b (map fst fs)) (TrackBox.boxes (TrackBox.self w)).
Proof.
  unfold TrackBox.run_ticks, box_frames. revert w.
  induction fs as [|f fs IH]; intros w Hwf; cbn [fold_left map].
  - now rewrite map_id.
  - rewrite IH.
    + rewrite (tick_frames f w Hwf), map_map. reflexivity.
    + rewrite (tick_frames f w Hwf).
      apply well_formed_map; [|exact Hwf].
      intros b. apply frame_well_formed.
Qed.

Lemma ticks_act_zone_by_zone_witness :
  TrackBox.boxes
    (TrackBox.self (TrackBox.run_ticks enabled (repeat one_inside 25))) =
  [box_frames door (map fst (repeat one_inside 25))].
Proof.
  apply (ticks_act_zone_by_zone enabled (repeat one_inside 25)).
  repeat constructor.
Defined.

(** ** What stays true of the zones and of the counter *)

Lemma zone_of_same_but_count (c : TrackBox.box_config) (b b' : Box.t) :
  zone_of c b -> same_but_count b b' -> zone_of c b'.
Proof.
  intros (Hn & Hx & Hm & Hl & Hc & Hh) (Hn' & Hx' & Hh' & Hc').
  unfold zone_of, counts_nonneg. rewrite Hn', Hx', Hh'.
  repeat split; try assumption. lia.
Qed.

Lemma zone_of_update (c : TrackBox.box_config) (b : Box.t) :
  zone_of c b -> zone_of c (Box.update b).
Proof.
  intros (Hn & Hx & Hm & Hl & Hc).
  unfold zone_of. cbn [Box.update Box.name Box.xyxy Box.history].
  repeat split; try assumption.
  - rewrite <- Hm. apply append_length. now rewrite Hm.
  - apply (step_counts_nonneg b Box.DoUpdate Hc).
  - apply (step_counts_nonneg b Box.DoUpdate Hc).
Qed.

Lemma zones_same_but_count (cs : list TrackBox.box_config)
    (bs bs' : list Box.t) :
  Forall2 zone_of cs bs -> Forall2 same_but_count bs bs' ->
  Forall2 zone_of cs bs'.
Proof.
  intros H. revert bs'.
  induction H as [|c b cs bs Hz _ IH]; intros bs' H'; inversion H'; subst.
  - constructor.
  - constructor; [now apply (zone_of_same_but_count c b) | now apply IH].
Qed.

Lemma zones_update (cs : list TrackBox.box_config) (bs : list Box.t) :
  Forall2 zone_of cs bs -> Forall2 zone_of cs (map Box.update bs).
Proof.
  induction 1 as [|c b cs bs Hz _ IH]; cbn [map]; constructor;
    [now apply zone_of_update | exact IH].
Qed.

Lemma new_all_zones (cs : list TrackBox.box_config) (bs : list Box.t) :
  TrackBox.new_all cs = Ok bs -> Forall2 zone_of cs bs.
Proof.
  revert bs. induction cs as [|c cs IH]; intros bs; cbn [TrackBox.new_all].
  - intros [= <-]. constructor.
  - destruct (TrackBox.new c) as [b|] eqn:Eb; [|discriminate].
    destruct (TrackBox.new_all cs) as [bs'|]; [|discriminate].
    intros [= <-]. constructor; [|now apply IH].
    apply init_bounded in Eb.
    destruct Eb as ([Hm Hl] & _ & Hi & Hc & Hx & Hn).
    unfold zone_of, counts_nonneg. rewrite Hi in *.
    repeat split; try assumption; [lia | constructor].
Qed.

Lemma save_boxes (e : env) (w : TrackBox.world) :
  TrackBox.boxes (TrackBox.self (TrackBox.world_of (TrackBox.save e w))) =
  TrackBox.boxes (TrackBox.self w).
Proof.
  destruct (TrackBox.persist (TrackBox.self w)) as [p|] eqn:Hp.
  - destruct (save_sound e w p Hp); reflexivity.
  - unfold TrackBox.save. now rewrite Hp.
Qed.

(** X25: in every world reachable from [TrackBox(cs)], whatever calls were
    made and however they ended, the zones are still the entries of [cs] in
    order: each has the name, the rectangle and the history bound it was
    built with, holds no more counts than its smoothness, and has no
    negative count. *)
Theorem reachable_zones_match_config (cs : list TrackBox.box_config)
    (w : TrackBox.world) :
  TrackBox.reachable cs w ->
  Forall2 zone_of cs (TrackBox.boxes (TrackBox.self w)).
Proof.
  induction 1 as [tb d Hinit|w c _ IH].
  - unfold TrackBox.init in Hinit.
    destruct (TrackBox.new_all cs) as [bs|] eqn:E; [|discriminate].
    injection Hinit as <-. now apply new_all_zones.
  - destruct c as [pos|e|e|e path interval fps speed camera];
      cbn [TrackBox.exec].
    + pose proof (check_boxes_same_but_count w pos) as H2.
      now apply (zones_same_but_count cs _ _ IH).
    + rewrite update_boxes. now apply zones_update.
    + now rewrite save_boxes.
    + unfold TrackBox.config_save. now destruct (io_ok e).
Qed.

Lemma reachable_zones_match_config_witness :
  Forall2 zone_of [door_config]
    (TrackBox.boxes
       (TrackBox.self
          (TrackBox.world_of
             (TrackBox.exec fresh (TrackBox.CallCheck (PInt 3)))))).
Proof.
  apply (reachable_zones_match_config [door_config]).
  apply TrackBox.reach_call. exact fresh_reachable.
Defined.

(** X26: in every reachable world in which persistence is enabled, the
    frame counter is >= 0 and the stored speed is >= 1. *)
Theorem reachable_counter_nonneg (cs : list TrackBox.box_config)
    (w : TrackBox.world) (p : TrackBox.persistence) :
  TrackBox.reachable cs w ->
  TrackBox.persist (TrackBox.self w) = Some p ->
  0 <= TrackBox.time p /\ 1 <= TrackBox.speed (TrackBox.conf p).
Proof.
  intros Hr. revert p.
  induction Hr as [tb d Hinit|w c _ IH]; intros p.
  - unfold TrackBox.init in Hinit.
    destruct (TrackBox.new_all cs); [|discriminate].
    injection Hinit as <-. discriminate.
  - destruct c as [pos|e|e|e path interval fps speed camera];
      cbn [TrackBox.exec].
    + destruct (check_world w pos) as (Hp & _). cbv zeta in Hp.
      rewrite Hp. apply IH.
    + destruct (TrackBox.persist (TrackBox.self w)) as [q|] eqn:Hq.
      * specialize (IH q eq_refl).
        destruct (update_sound e w q Hq); cbn; rewrite ?Hq;
          intros [= <-]; cbn; try exact IH;
          destruct (TrackBox.camera (TrackBox.conf q)); lia.
      * rewrite (update_disabled e w Hq). cbn. rewrite Hq. discriminate.
    + destruct (TrackBox.persist (TrackBox.self w)) as [q|] eqn:Hq.
      * specialize (IH q eq_refl).
        destruct (save_sound e w q Hq); cbn; rewrite ?Hq;
          intros [= <-]; cbn; try exact IH;
          destruct (TrackBox.camera (TrackBox.conf q)); lia.
      * unfold TrackBox.save. rewrite Hq. cbn. rewrite Hq. discriminate.
    + unfold TrackBox.config_save. destruct (io_ok e); [|apply IH].
      cbn. intros [= <-]. cbn. lia.
Qed.

Lemma reachable_counter_nonneg_witness :
  0 <= 0 /\ 1 <= Z.max 1 (-3).
Proof.
  apply (reachable_counter_nonneg [door_config]
           (TrackBox.world_of
              (TrackBox.exec fresh
                 (TrackBox.CallConfigSave env_ok "out.csv" 2 10 (-3) true)))
           {| TrackBox.time := 0;
              TrackBox.conf := stored_conf "out.csv" 2 10 (-3) true |}).
  - apply TrackBox.reach_call. exact fresh_reachable.
  - reflexivity.
Defined.

(** ** Concrete instances of the equivalences *)

Lemma check_raises_iff_witness :
  Box.check (Box.mk "mat" [5; 5] (Deque.mk 3 []) 0) (PInt 1) =
  Raise ValueError.
Proof.
  apply (proj2 (proj2 (check_raises_iff (Box.mk "mat" [5; 5] (Deque.mk 3 []) 0)
                         (PInt 1) 1 ValueError))).
  split; [reflexivity|]. left. discriminate.
Defined.

Lemma tuple_handler_raises_iff_witness :
  tuple_handler_z (PInt 5) (-1) = Raise ValueError.
Proof.
  apply (proj2 (proj1 (tuple_handler_raises_iff (PInt 5) (-1) ValueError
                         eq_refl))).
  split; [reflexivity|]. left. exists 5. split; reflexivity.
Defined.

Lemma workers_handler_int_raises_iff_witness :
  Utils.workers_handler unit (fun _ _ => Utils.Return 0) 4 (Utils.WInt (-1)) =
  Utils.Fail Utils.ValueError.
Proof.
  apply (proj2 (proj1 (workers_handler_int_raises_iff unit
                         (fun _ _ => Utils.Return 0) 4 (-1)
                         Utils.ValueError))).
  split; [reflexivity|]. left. reflexivity.
Defined.

Lemma device_handler_returns_iff_witness :
  Utils.device_handler (fun s => s) false (Utils.DStr "auto") =
  Utils.Return "cpu".
Proof.
  apply (proj2 (device_handler_returns_iff (fun s => s) false
                  (Utils.DStr "auto") "cpu")).
  exists "auto". split; [reflexivity|]. left. split; reflexivity.
Defined.

Lemma device_handler_raises_witness :
  Utils.device_handler (fun s => s) true (Utils.DStr "cuda:0") =
  Utils.Fail Utils.TypeError.
Proof.
  apply (proj2 (proj2 (device_handler_raises (fun s => s) true
                         (Utils.DStr "cuda:0")))).
  right. exists "cuda:0". split; [reflexivity|]. split; discriminate.
Defined.
